(** * projet_NN: the grid / score / recovery engine of [database_gen.py]

    A shallow embedding of the second half ("NN2") of [src/database_gen.py]:
    [is_in_contour], [create_grid], [score_of_node], [calculate_score_array],
    [place_inner_vertex], [remove_points_grid] and [compute_vertices].

    Numbers.  The program computes on binary64 values.  The embedding is
    written once, over an interface [PyFloat] that lists the operations the
    source uses ([+ - * /], [abs], [**2], the comparisons, [int()],
    literals), with [math.sqrt] in an interface of its own.  The general
    theorems are stated and proved for every implementation of the
    interface, so for binary64 in particular.  Two implementations serve
    to evaluate them on inputs and to exhibit behaviours: [b64_float],
    Rocq's primitive binary64 numbers, which round as Python's do, and
    [Q_float], the rationals, on which small examples can be followed by
    hand.

    Errors.  A Python exception is a value [Raise e] of [result].

    Arrays.  A numpy array of shape (n,2) is a [list (F * F)], a flat array a
    [list F].  Indexing follows numpy: a negative index counts from the end,
    an index outside [-n, n) raises [IndexError]. *)

From Stdlib Require Import ZArith QArith Qabs List Bool Lia Floats.
Import ListNotations.

Set Implicit Arguments.

(** ** Python exceptions and results *)

Inductive exn : Type :=
| ValueError
| IndexError
| ZeroDivisionError
| OverflowError.

Inductive result (A : Type) : Type :=
| OK (a : A)
| Raise (e : exn).

Arguments OK {A} a.
Arguments Raise {A} e.

Definition is_error {A} (r : result A) : bool :=
  match r with OK _ => false | Raise _ => true end.

(** ** The arithmetic the source uses *)

Class PyFloat (F : Type) : Type := {
  f_of_Q : Q -> F;            (* a literal, or an int converted to float *)
  fadd : F -> F -> F;
  fsub : F -> F -> F;
  fmul : F -> F -> F;
  fdiv : F -> F -> F;         (* numpy division: total *)
  fneg : F -> F;
  fabs : F -> F;
  npow2 : F -> F;             (* x**2 on a numpy float64: never raises *)
  fpow2 : F -> result F;      (* x**2 on a Python float: OverflowError *)
  feqb : F -> F -> bool;      (* == *)
  fltb : F -> F -> bool;      (* <  *)
  fleb : F -> F -> bool;      (* <= *)
  f_int : F -> result Z       (* int(): truncation toward zero *)
}.

(** [math.sqrt].  It raises on a negative argument only; the source
    applies it to a sum of two squares. *)
Class PySqrt (F : Type) : Type := {
  fsqrt : F -> F
}.

Declare Scope py_scope.
Delimit Scope py_scope with py.
Infix "+" := fadd : py_scope.
Infix "-" := fsub : py_scope.
Infix "*" := fmul : py_scope.
Infix "/" := fdiv : py_scope.
Notation "- x" := (fneg x) : py_scope.
Infix "==" := feqb (at level 70, no associativity) : py_scope.
Infix "<?" := fltb (at level 70, no associativity) : py_scope.
Infix "<=?" := fleb (at level 70, no associativity) : py_scope.
(* a > b is evaluated as b < a, a >= b as b <= a *)
Notation "a >? b" := (fltb b a)
  (at level 70, no associativity, only parsing) : py_scope.
Notation "a >=? b" := (fleb b a)
  (at level 70, no associativity, only parsing) : py_scope.

Definition lit {F} `{PyFloat F} (q : Q) : F := f_of_Q q.
Definition of_int {F} `{PyFloat F} (z : Z) : F := f_of_Q (inject_Z z).

(** A NaN is the one value that differs from itself. *)
Definition f_is_nan {F} `{PyFloat F} (x : F) : bool := negb (feqb x x).

(** *** Binary64 *)

Definition b64_of_Z (z : Z) : float :=
  SF2Prim (binary_normalize prec emax z 0 false).

Definition b64_of_Q (q : Q) : float :=
  PrimFloat.div (b64_of_Z (Qnum q)) (b64_of_Z (Zpos (Qden q))).

Definition b64_int (f : float) : result Z :=
  match Prim2SF f with
  | S754_zero _ => OK 0%Z
  | S754_finite s m e =>
      let v := if (0 <=? e)%Z then Z.shiftl (Zpos m) e
               else Z.shiftr (Zpos m) (- e) in
      OK (if s then (- v)%Z else v)
  | S754_infinity _ => Raise OverflowError
  | S754_nan => Raise ValueError
  end.

(** [**2] goes to the C library's [pow(x, 2.0)].  The instance takes the
    square rounded to nearest; a C library may return the neighbouring
    value on some arguments, and the general theorems below do not depend
    on which.  Python raises [OverflowError] when the power of
    a finite float is infinite; numpy returns the infinity. *)
Definition b64_npow2 (x : float) : float := PrimFloat.mul x x.

Definition b64_fpow2 (x : float) : result float :=
  let r := PrimFloat.mul x x in
  if PrimFloat.is_infinity r && negb (PrimFloat.is_infinity x)
  then Raise OverflowError
  else OK r.

#[global] Instance b64_float : PyFloat float := {|
  f_of_Q := b64_of_Q;
  fadd := PrimFloat.add;
  fsub := PrimFloat.sub;
  fmul := PrimFloat.mul;
  fdiv := PrimFloat.div;
  fneg := PrimFloat.opp;
  fabs := PrimFloat.abs;
  npow2 := b64_npow2;
  fpow2 := b64_fpow2;
  feqb := PrimFloat.eqb;
  fltb := PrimFloat.ltb;
  fleb := PrimFloat.leb;
  f_int := b64_int
|}.

#[global] Instance b64_sqrt : PySqrt float := {|
  fsqrt := PrimFloat.sqrt
|}.

(** *** Rationals

    No rounding, no overflow, no infinity and no NaN; a division by zero,
    which numpy answers with an infinity or a NaN, is not represented and
    the examples below stay away from it.  [math.sqrt] is not
    implemented. *)

Definition Qtrunc (q : Q) : Z := Z.quot (Qnum q) (Zpos (Qden q)).

#[global] Instance Q_float : PyFloat Q := {|
  f_of_Q := fun q => q;
  fadd := Qplus;
  fsub := Qminus;
  fmul := Qmult;
  fdiv := Qdiv;
  fneg := Qopp;
  fabs := Qabs;
  npow2 := fun x => Qmult x x;
  fpow2 := fun x => OK (Qmult x x);
  feqb := Qeq_bool;
  fltb := fun a b => negb (Qle_bool b a);
  fleb := Qle_bool;
  f_int := fun q => OK (Qtrunc q)
|}.

(** *** Values the comparisons order

    [<], [<=] and [==] order the values of [l] as numbers are ordered.
    This is what binary64 values other than NaN satisfy, and all a minimum
    needs. *)
Definition totally_ordered {F} `{PyFloat F} (l : list F) : Prop :=
  (forall a, In a l -> feqb a a = true)
  /\ (forall a, In a l -> fltb a a = false)
  /\ (forall a b, In a l -> In b l -> fleb a b = negb (fltb b a))
  /\ (forall a b c, In a l -> In b l -> In c l ->
        fltb a b = true -> fltb b c = true -> fltb a c = true)
  /\ (forall a b c, In a l -> In b l -> In c l ->
        fleb a b = true -> fleb b c = true -> fleb a c = true).

(** ** Control flow: a loop body either returns from the function or goes on *)

Inductive flow (R S : Type) : Type :=
| Return (r : R)
| Continue (s : S).

Arguments Return {R S} r.
Arguments Continue {R S} s.

(** [for i in idx: body], with [return] inside the body *)
Fixpoint for_in {I R S : Type} (idx : list I) (body : I -> S -> flow R S)
    (s : S) : flow R S :=
  match idx with
  | [] => Continue s
  | i :: rest =>
      match body i s with
      | Return r => Return r
      | Continue s' => for_in rest body s'
      end
  end.

Definition range (n : nat) : list nat := seq 0 n.

(** A 2D point, one row of an (n,2) array *)
Definition point (F : Type) : Type := (F * F)%type.

(** ** [is_in_contour] *)

Section Contour.
Context {F : Type} `{PyFloat F}.
Local Open Scope py_scope.

Definition origin : point F := (lit 0, lit 0).

(** [coord[i]] for an index the loop keeps in range *)
Definition row (coord : list (point F)) (i : nat) : point F :=
  nth i coord origin.

(** (x-coord[i][0])*(coord[j][1]-coord[i][1])
    - (coord[j][0]-coord[i][0])*(y-coord[i][1]) *)
Definition slope (x y : F) (pi pj : point F) : F :=
  (x - fst pi) * (snd pj - snd pi) - (fst pj - fst pi) * (y - snd pi).

(** (coord[i][1] > y) != (coord[j][1] > y) *)
Definition straddles (y : F) (pi pj : point F) : bool :=
  xorb (snd pi >? y) (snd pj >? y).

(** (slope < 0) != (coord[j][1] < coord[i][1]) *)
Definition crosses (x y : F) (pi pj : point F) : bool :=
  xorb (slope x y pi pj <? lit 0) (snd pj <? snd pi).

Definition is_corner (x y : F) (p : point F) : bool :=
  (x == fst p) && (y == snd p).

(** One iteration of the loop; the state is [(j, c)]. *)
Definition contour_step (x y : F) (coord : list (point F)) (i : nat)
    (s : nat * bool) : flow bool (nat * bool) :=
  let '(j, c) := s in
  if is_corner x y (row coord i) then Return true
  else
    if straddles y (row coord i) (row coord j) then
      if slope x y (row coord i) (row coord j) == lit 0 then Return true
      else
        if crosses x y (row coord i) (row coord j)
        then Continue (i, negb c)
        else Continue (i, c)
    else Continue (i, c).

Definition is_in_contour (x y : F) (coord : list (point F)) : bool :=
  let num := length coord in
  let j := (num - 1)%nat in
  let c := false in
  match for_in (range num) (contour_step x y coord) (j, c) with
  | Return r => r
  | Continue (_, c) => c
  end.

(** *** The crossing-number reading of the loop *)

(** Edge [i] joins vertex [i] to its cyclic predecessor. *)
Definition pred_index (num i : nat) : nat :=
  match i with O => (num - 1)%nat | S k => k end.

Definition edges (coord : list (point F)) : list (point F * point F) :=
  map (fun i => (row coord i, row coord (pred_index (length coord) i)))
      (range (length coord)).

(** The edges the loop meets when it walks [idx] with [j] as the previous
    index *)
Fixpoint edges_from (coord : list (point F)) (j : nat) (idx : list nat)
    : list (point F * point F) :=
  match idx with
  | [] => []
  | i :: rest => (row coord i, row coord j) :: edges_from coord i rest
  end.

Definition counted (x y : F) (e : point F * point F) : bool :=
  straddles y (fst e) (snd e) && crosses x y (fst e) (snd e).

Definition crossings (x y : F) (coord : list (point F)) : nat :=
  length (filter (counted x y) (edges coord)).

Definition on_straddling_edge (x y : F) (e : point F * point F) : bool :=
  straddles y (fst e) (snd e) && (slope x y (fst e) (snd e) == lit 0).

(** The edges of a vertex list whose first vertex follows [prev] *)
Fixpoint links (prev : point F) (l : list (point F))
    : list (point F * point F) :=
  match l with
  | [] => []
  | p :: rest => (p, prev) :: links p rest
  end.

(** Inside by a corner, by a straddling edge of zero slope, or by parity *)
Definition corner_boundary_or_parity (x y : F) (coord : list (point F))
    : bool :=
  existsb (is_corner x y) coord
  || existsb (on_straddling_edge x y) (edges coord)
  || Nat.odd (crossings x y coord).

End Contour.

(** ** Arrays and lists as Python indexes them *)

(** [a[i]] on a numpy array or a Python list *)
Definition py_index {A} (l : list A) (i : Z) : result A :=
  let n := Z.of_nat (length l) in
  let k := if (i <? 0)%Z then (i + n)%Z else i in
  if ((0 <=? k) && (k <? n))%Z then
    match nth_error l (Z.to_nat k) with
    | Some a => OK a
    | None => Raise IndexError
    end
  else Raise IndexError.

(** [del l[i]] *)
Definition py_del {A} (l : list A) (i : Z) : result (list A) :=
  let n := Z.of_nat (length l) in
  let k := if (i <? 0)%Z then (i + n)%Z else i in
  if ((0 <=? k) && (k <? n))%Z then
    OK (firstn (Z.to_nat k) l ++ skipn (S (Z.to_nat k)) l)
  else Raise IndexError.

(** [a[i] = v] for [i] in [range(len(a))] *)
Fixpoint list_set {A} (l : list A) (i : nat) (v : A) : list A :=
  match l, i with
  | [], _ => []
  | _ :: t, O => v :: t
  | a :: t, S k => a :: list_set t k v
  end.

(** The rows of [l] whose index passes [keep], indices counted from [a] *)
Definition select {A} (keep : nat -> bool) (a : nat) (l : list A) : list A :=
  map snd (filter (fun ia => keep (fst ia)) (combine (seq a (length l)) l)).

(** [np.delete(a, obj, axis=0)] for a list [obj] of non-negative indices:
    a new array without the rows named in [obj]; an index past the end
    raises. *)
Definition np_delete {A} (l : list A) (obj : list nat) : result (list A) :=
  if forallb (fun i => (i <? length l)%nat) obj then
    OK (select (fun i => negb (existsb (Nat.eqb i) obj)) 0 l)
  else Raise IndexError.

(** [for i in idx: body] where the body may raise *)
Fixpoint for_r {I S : Type} (idx : list I) (body : I -> S -> result S)
    (s : S) : result S :=
  match idx with
  | [] => OK s
  | i :: rest =>
      match body i s with
      | OK s' => for_r rest body s'
      | Raise e => Raise e
      end
  end.

(** ** [create_grid] *)

Section Grid.
Context {F : Type} `{PyFloat F}.
Local Open Scope py_scope.

(** Body of the inner loop; the state is [(x, grid)]. *)
Definition grid_cell (coord : list (point F)) (Gscale y : F)
    (s : F * list (point F)) : F * list (point F) :=
  let '(x, grid) := s in
  let grid := if is_in_contour x y coord then grid ++ [(x, y)] else grid in
  (x + Gscale, grid).

(** Body of the outer loop; the state is [(x, y, grid)]. *)
Definition grid_row (coord : list (point F)) (Gscale : F) (nnodes : Z)
    (s : F * F * list (point F)) : F * F * list (point F) :=
  let '(x, y, grid) := s in
  let '(x, grid) :=
    fold_left (fun s (_ : nat) => grid_cell coord Gscale y s)
              (range (Z.to_nat nnodes)) (x, grid) in
  let x := - Gscale * of_int nnodes / of_int 2 in
  (x, y + Gscale, grid).

Definition create_grid (coord : list (point F)) (ls : F)
    : result (list (point F)) :=
  let Gscale_factor := lit (1 # 100) in
  let Gscale := Gscale_factor * ls in
  (* 2/Gscale on Python floats *)
  if Gscale == lit 0 then Raise ZeroDivisionError
  else
    match f_int (of_int 2 / Gscale) with
    | Raise e => Raise e
    | OK nnodes =>
        let grid := [] in
        let x := - Gscale * of_int nnodes / of_int 2 in
        let y := - Gscale * of_int nnodes / of_int 2 in
        let '(_, _, grid) :=
          fold_left (fun s (_ : nat) => grid_row coord Gscale nnodes s)
                    (range (Z.to_nat nnodes)) (x, y, grid) in
        OK grid
    end.

(** *** The lattice the loops walk *)

(** The coordinate after [k] increments by [Gscale] *)
Definition walk (Gscale start : F) (k : nat) : F :=
  Nat.iter k (fun c => c + Gscale) start.

(** The lattice in row-major order: y outer, x inner *)
Definition lattice (n : nat) (Gscale start : F) : list (point F) :=
  flat_map (fun i => map (fun j => (walk Gscale start j, walk Gscale start i))
                         (range n))
           (range n).

Definition corner (Gscale : F) (nnodes : Z) : F :=
  - Gscale * of_int nnodes / of_int 2.

(** The oracle on a point *)
Definition inside (coord : list (point F)) (p : point F) : bool :=
  is_in_contour (fst p) (snd p) coord.

End Grid.

(** ** [score_of_node], [calculate_score_array] *)

Section Scorer.
Context {F : Type} `{PyFloat F} `{PySqrt F}.
Local Open Scope py_scope.

(** [nodes[k]] for an index the loop keeps in range *)
Definition flat (nodes : list F) (k : nat) : F := nth k nodes (lit 0).

(** Python's [min] on a sequence: the first smallest element; raises on an
    empty one. *)
Definition py_min (l : list F) : result F :=
  match l with
  | [] => Raise ValueError
  | x :: t => OK (fold_left (fun m d => if d <? m then d else m) t x)
  end.

Definition euclid (node : point F) (tx ty : F) : F :=
  fsqrt (npow2 (fst node - tx) + npow2 (snd node - ty)).

Definition score_of_node (node : point F) (nodes : list F) : result F :=
  let nb_nodes := (length nodes / 2)%nat in
  let dist := repeat (lit 0) nb_nodes in
  let dist :=
    fold_left (fun dist i =>
                 list_set dist i
                   (euclid node (flat nodes (2 * i)) (flat nodes (2 * i + 1))))
              (range nb_nodes) dist in
  py_min dist.

Definition calculate_score_array (grid : list (point F))
    (coord_inner_v : list F) : result (list F) :=
  let nb_nodes := (2 * length grid / 2)%nat in
  let Scores := repeat (lit 0) nb_nodes in
  for_r (range nb_nodes)
        (fun i Scores =>
           match score_of_node (fst (row grid i), snd (row grid i))
                               coord_inner_v with
           | OK v => OK (list_set Scores i v)
           | Raise e => Raise e
           end)
        Scores.

(** *** The target set behind the flat array *)

Fixpoint targets (nodes : list F) : list (point F) :=
  match nodes with
  | tx :: ty :: rest => (tx, ty) :: targets rest
  | _ => []
  end.

Definition distances (node : point F) (nodes : list F) : list F :=
  map (fun t => euclid node (fst t) (snd t)) (targets nodes).

End Scorer.

(** ** [remove_points_grid] *)

Section Prune.
Context {F : Type} `{PyFloat F}.
Local Open Scope py_scope.

(** (grid[i][0]-x)**2 + (grid[i][1]-y)**2 < radius**2, where [r2] is the
    value of [radius**2] *)
Definition too_close (r2 : F) (vert p : point F) : bool :=
  npow2 (fst p - fst vert) + npow2 (snd p - snd vert) <? r2.

(** Body of the loop; the state is [to_remove].  The grid entries and the
    vertex are numpy values, [radius] is a Python float. *)
Definition prune_step (grid : list (point F)) (x y radius : F) (i : nat)
    (to_remove : list nat) : result (list nat) :=
  let d2 := npow2 (fst (row grid i) - x) + npow2 (snd (row grid i) - y) in
  match fpow2 radius with
  | Raise e => Raise e
  | OK r2 => OK (if d2 <? r2 then to_remove ++ [i] else to_remove)
  end.

(** The test a call that returns has applied to a grid point: the radius
    test, when [radius**2] has a value.  When it has none the call returns
    only on the empty grid, where no point is tested. *)
Definition prune_test (ls : F) (vert p : point F) : bool :=
  match fpow2 (lit (1 # 10) * ls) with
  | OK r2 => too_close r2 vert p
  | Raise _ => false
  end.

Definition remove_points_grid (ls : F) (vert : point F)
    (grid : list (point F)) (scores : list F)
    : result (list (point F) * list F) :=
  let x := fst vert in
  let y := snd vert in
  let radius := lit (1 # 10) * ls in
  match for_r (range (length grid)) (prune_step grid x y radius) [] with
  | Raise e => Raise e
  | OK to_remove =>
      match np_delete grid to_remove with
      | Raise e => Raise e
      | OK grid' =>
          match np_delete scores to_remove with
          | Raise e => Raise e
          | OK scores' => OK (grid', scores')
          end
      end
  end.

End Prune.

(** ** The arrays of the recovery loop

    [compute_vertices] holds three arrays: [grid], [scores] and
    [out_vertices].  [place_inner_vertex] is handed the first two by
    reference, so it runs on the same store. *)

Record vars (F : Type) : Type := Vars {
  var_grid : list (point F);
  var_scores : list F;
  var_out : list (point F)
}.

Arguments Vars {F} _ _ _.

(** A computation on the store that may raise *)
Definition M (F A : Type) : Type := vars F -> result (A * vars F).

Definition ret {F A} (a : A) : M F A := fun st => OK (a, st).

Definition bind {F A B} (c : M F A) (k : A -> M F B) : M F B :=
  fun st =>
    match c st with
    | OK (a, st') => k a st'
    | Raise e => Raise e
    end.

Declare Scope monad_scope.
Delimit Scope monad_scope with monad.
Notation "x <- c ;; k" := (bind c (fun x => k))
  (at level 61, c at next level, right associativity) : monad_scope.
Notation "c ;;; k" := (bind c (fun _ => k))
  (at level 61, right associativity) : monad_scope.

(** A raising expression that does not touch the store *)
Definition lift {F A} (r : result A) : M F A :=
  fun st => match r with OK a => OK (a, st) | Raise e => Raise e end.

(** A computation that leaves the store as it found it *)
Definition read_only {F A} (c : M F A) : Prop :=
  forall st a st', c st = OK (a, st') -> st' = st.

(** A computation whose only exception is [IndexError] *)
Definition index_errors_only {F A} (c : M F A) : Prop :=
  forall st e, c st = Raise e -> e = IndexError.

(** [a[i]] where it is known not to raise *)
Definition np_get {A} (d : A) (l : list A) (i : Z) : A :=
  match py_index l i with OK a => a | Raise _ => d end.

(** The indices numpy accepts on an array of length [n] *)
Definition valid_index (n : nat) (i : Z) : Prop :=
  (- Z.of_nat n <= i < Z.of_nat n)%Z.

(** [for i in idx: body] over the store *)
Fixpoint for_m {F I S : Type} (idx : list I) (body : I -> S -> M F S)
    (s : S) : M F S :=
  match idx with
  | [] => ret s
  | i :: rest => bind (body i s) (for_m rest body)
  end.

Section Store.
Context {F : Type} `{PyFloat F}.

Definition grid_at (i : Z) : M F (point F) :=
  fun st => lift (py_index (var_grid st) i) st.

Definition scores_at (i : Z) : M F F :=
  fun st => lift (py_index (var_scores st) i) st.

Definition out_at (i : Z) : M F (point F) :=
  fun st => lift (py_index (var_out st) i) st.

Definition len_grid : M F nat := fun st => OK (length (var_grid st), st).

Definition get_grid : M F (list (point F)) := fun st => OK (var_grid st, st).

Definition get_scores : M F (list F) := fun st => OK (var_scores st, st).

(** [out_vertices[i] = p] *)
Definition set_out (i : nat) (p : point F) : M F unit :=
  fun st =>
    if (i <? length (var_out st))%nat then
      OK (tt, Vars (var_grid st) (var_scores st)
                   (list_set (var_out st) i p))
    else Raise IndexError.

(** [grid, scores = g, s] *)
Definition rebind (g : list (point F)) (s : list F) : M F unit :=
  fun st => OK (tt, Vars g s (var_out st)).

(** [np.argmin(scores)]: the first index of the least score, a NaN
    counting as least.  numpy scans with [!(v >= best)] and stops at the
    first NaN it takes. *)
Fixpoint argmin_from (best : F) (besti i : nat) (l : list F) : nat :=
  match l with
  | [] => besti
  | v :: t =>
      if negb (v >=? best)%py then
        if f_is_nan v then i else argmin_from v i (S i) t
      else argmin_from best besti (S i) t
  end.

Definition np_argmin (l : list F) : result Z :=
  match l with
  | [] => Raise ValueError
  | v :: t =>
      OK (Z.of_nat (if f_is_nan v then 0%nat else argmin_from v 0 1 t))
  end.

Definition argmin_scores : M F Z :=
  fun st => lift (np_argmin (var_scores st)) st.

End Store.

(** ** [place_inner_vertex] *)

Section Recoverer.
Context {F : Type} `{PyFloat F}.
Local Open Scope py_scope.
Local Open Scope monad_scope.

(** Body of the scan for the points around the minimum; the state is
    [local_domain_label]. *)
Definition scan_step (coord_min : point F) (Gscale : F) (i : nat)
    (local_domain_label : list Z) : M F (list Z) :=
  gi <- grid_at (Z.of_nat i) ;;
  if fst gi == fst coord_min then
    gi' <- grid_at (Z.of_nat i) ;;
    if fabs (snd gi' - snd coord_min) <=? lit (11 # 10) * Gscale then
      ret (local_domain_label
             ++ [(Z.of_nat i - 1)%Z; Z.of_nat i; (Z.of_nat i + 1)%Z])
    else ret local_domain_label
  else ret local_domain_label.

(** Body of either interpolation loop; [axis] is [fst] for x and [snd]
    for y, the state is [(sum, sum_score)]. *)
Definition weigh (axis : point F -> F) (local_domain_label : list Z)
    (local_domain_scores : list F) (i : Z) (acc : F * F) : M F (F * F) :=
  let '(sum, sum_score) := acc in
  s <- lift (py_index local_domain_scores i) ;;
  l <- lift (py_index local_domain_label i) ;;
  g <- grid_at l ;;
  let sum := sum + s * axis g in
  s' <- lift (py_index local_domain_scores i) ;;
  let sum_score := sum_score + s' in
  ret (sum, sum_score).

Definition xs : list Z := [0; 1; 2; 5; 6; 7]%Z.
Definition ys : list Z := [0; 3; 5; 2; 4; 7]%Z.

(** [coord_min] is a view of a row of [grid]; nothing writes to [grid]
    while it is in use, so it is the value read. *)
Definition place_inner_vertex (ls : F) : M F (point F) :=
  coord_min_label <- argmin_scores ;;
  coord_min <- grid_at coord_min_label ;;
  next <- grid_at (coord_min_label + 1)%Z ;;
  let Gscale := fabs (fst coord_min - fst next) in
  n <- len_grid ;;
  local_domain_label <- for_m (range n) (scan_step coord_min Gscale) [] ;;
  local_domain_label <- lift (py_del local_domain_label 4) ;;
  local_domain_scores <-
    for_m local_domain_label
          (fun i acc => s <- scores_at i ;; ret (acc ++ [s])) [] ;;
  xacc <- for_m xs (weigh fst local_domain_label local_domain_scores)
                (lit 0, lit 0) ;;
  yacc <- for_m ys (weigh snd local_domain_label local_domain_scores)
                (lit 0, lit 0) ;;
  let xbar := fst xacc / snd xacc in
  let ybar := fst yacc / snd yacc in
  ret (xbar, ybar).

(** *** The neighbourhood behind the labels *)

(** The indices the scan keeps: same x as the minimum, y within
    [1.1 * Gscale] of it. *)
Definition in_column (g : list (point F)) (coord_min : point F)
    (Gscale : F) (i : nat) : bool :=
  (fst (row g i) == fst coord_min)
  && (fabs (snd (row g i) - snd coord_min) <=? lit (11 # 10) * Gscale).

Definition column (g : list (point F)) (coord_min : point F) (Gscale : F)
    : list nat :=
  filter (in_column g coord_min Gscale) (range (length g)).

Definition slots (col : list nat) : list Z :=
  flat_map (fun i => [(Z.of_nat i - 1)%Z; Z.of_nat i; (Z.of_nat i + 1)%Z])
           col.

(** Score-weighted average of one coordinate over the entries [sel] of a
    neighbourhood of (score, point) pairs, summed left to right from 0 *)
Definition weighted_average (axis : point F -> F)
    (nb : list (F * point F)) : F :=
  fold_left (fun a sp => a + fst sp * axis (snd sp)) nb (lit 0)
  / fold_left (fun a sp => a + fst sp) nb (lit 0).

(** The entries of [l] at the positions [sel] *)
Definition pick {A} (d : A) (l : list A) (sel : list nat) : list A :=
  map (fun k => nth k l d) sel.

(** The eight labels left of the slots of three column indices once the
    fifth slot is deleted *)
Definition eight_labels (i0 i1 i2 : nat) : list Z :=
  [ (Z.of_nat i0 - 1)%Z; Z.of_nat i0; (Z.of_nat i0 + 1)%Z;
    (Z.of_nat i1 - 1)%Z; (Z.of_nat i1 + 1)%Z;
    (Z.of_nat i2 - 1)%Z; Z.of_nat i2; (Z.of_nat i2 + 1)%Z ].

(** The (score, point) pairs behind the eight labels, in list order *)
Definition neighbourhood (st : vars F) (i0 i1 i2 : nat)
    : list (F * point F) :=
  map (fun l => (np_get (lit 0) (var_scores st) l,
                 np_get origin (var_grid st) l))
      (eight_labels i0 i1 i2).

(** The 8-neighbour precondition: the arrays are parallel, the read of
    [grid[m+1]] is in range, the scan finds exactly the three column
    indices [i0], [i1], [i2], and each of their nine slots is an index
    numpy accepts. *)
Definition eight_neighbours (st : vars F) (i0 i1 i2 : nat) : Prop :=
  exists (m : Z) (coord_min next : point F),
    np_argmin (var_scores st) = OK m
    /\ py_index (var_grid st) m = OK coord_min
    /\ py_index (var_grid st) (m + 1) = OK next
    /\ column (var_grid st) coord_min (fabs (fst coord_min - fst next))
       = [i0; i1; i2]
    /\ length (var_scores st) = length (var_grid st)
    /\ Forall (valid_index (length (var_grid st))) (slots [i0; i1; i2]).

End Recoverer.

(** ** [compute_vertices] *)

Section Loop.
Context {F : Type} `{PyFloat F}.
Local Open Scope py_scope.
Local Open Scope monad_scope.

(** Body of the loop *)
Definition recover_step (ls : F) (i : nat) (_ : unit) : M F unit :=
  p <- place_inner_vertex ls ;;
  set_out i p ;;;
  v <- out_at (Z.of_nat i) ;;
  g <- get_grid ;;
  s <- get_scores ;;
  gs <- lift (remove_points_grid ls v g s) ;;
  rebind (fst gs) (snd gs).

(** The store after the first [k] iterations *)
Definition iterations (ls : F) (k : nat) : M F unit :=
  for_m (range k) (recover_step ls) tt.

Definition compute_vertices (ls : F) (contour : list (point F))
    (grid : list (point F)) (scores : list F) (nb_inner_v : Z)
    : result (list (point F)) :=
  (* np.zeros((nb_inner_v, 2)) *)
  if (nb_inner_v <? 0)%Z then Raise ValueError
  else
    let out_vertices := repeat (lit 0, lit 0) (Z.to_nat nb_inner_v) in
    match iterations ls (Z.to_nat nb_inner_v)
                     (Vars grid scores out_vertices) with
    | OK (_, st) => OK (var_out st)
    | Raise e => Raise e
    end.

End Loop.

(** ** The driver *)

Section Driver.
Context {F : Type} `{PyFloat F} `{PySqrt F}.

(** [main] from the contour on, with the mesher's output [coord_inner_v]
    as an input: the grid for [ls = 1.0], the scores, the recovery. *)
Definition main_recovery (contour : list (point F)) (coord_inner_v : list F)
    : result (list (point F)) :=
  match create_grid contour (lit 1) with
  | Raise e => Raise e
  | OK grid =>
      let nb_inner_v := (Z.of_nat (length coord_inner_v) / 2)%Z in
      match calculate_score_array grid coord_inner_v with
      | Raise e => Raise e
      | OK scores =>
          compute_vertices (lit 1) contour grid scores nb_inner_v
      end
  end.

End Driver.

(** ** Concrete inputs *)

(** The square contour [(-1,-1),(1,-1),(1,1),(-1,1)] *)
Definition square {F} `{PyFloat F} : list (point F) :=
  [ (of_int (-1), of_int (-1)); (of_int 1, of_int (-1));
    (of_int 1, of_int 1); (of_int (-1), of_int 1) ].

(** The square contour of side 0.2 around the origin *)
Definition small_square {F} `{PyFloat F} : list (point F) :=
  [ (lit (-1 # 10), lit (-1 # 10)); (lit (1 # 10), lit (-1 # 10));
    (lit (1 # 10), lit (1 # 10)); (lit (-1 # 10), lit (1 # 10)) ].

(** A 3 by 3 lattice of spacing 1, row-major from (0,0) *)
Definition grid3 {F} `{PyFloat F} : list (point F) :=
  map (fun xy => (of_int (fst xy), of_int (snd xy)))
      [ (0, 0); (1, 0); (2, 0); (0, 1); (1, 1); (2, 1);
        (0, 2); (1, 2); (2, 2) ]%Z.

(** A 3 by 4 lattice of spacing 1 without its point (1,1) *)
Definition grid_hole {F} `{PyFloat F} : list (point F) :=
  map (fun xy => (of_int (fst xy), of_int (snd xy)))
      [ (0, 0); (1, 0); (2, 0); (0, 1); (2, 1); (0, 2); (1, 2); (2, 2);
        (0, 3); (1, 3); (2, 3) ]%Z.

(** Scores on [grid_hole] with the minimum at index 3, the point (0,1) *)
Definition scores_hole {F} `{PyFloat F} : list F :=
  map of_int [2; 2; 2; 1; 2; 2; 2; 2; 2; 2; 2]%Z.

(** Scores on [grid3] with the minimum at the centre, index 4 *)
Definition scores_centre {F} `{PyFloat F} : list F :=
  map of_int [10; 10; 1; 1; 0; 1; 1; 1; 1]%Z.

(** Scores on [grid3] with the minimum in the left column, index 3 *)
Definition scores_left {F} `{PyFloat F} : list F :=
  map of_int [10; 10; 1; 0; 1; 1; 1; 1; 1]%Z.

(** Scores on [grid3] with the minimum at the bottom-left corner, index 0 *)
Definition scores_corner {F} `{PyFloat F} : list F :=
  map of_int [0; 1; 1; 1; 1; 1; 1; 1; 1]%Z.

(** Scores on [grid3] with the minimum at the last index, 8 *)
Definition scores_last {F} `{PyFloat F} : list F :=
  map of_int [1; 1; 1; 1; 1; 1; 1; 1; 0]%Z.

(* ================================================================= *)
(** * Properties *)

(** ** The point-in-polygon test *)

Section ContourFacts.
Context {F : Type} `{PyFloat F}.
Local Open Scope py_scope.

Lemma edges_from_seq (coord : list (point F)) (n a j : nat) :
  edges_from coord j (seq a n)
  = map (fun i => (row coord i,
                   row coord (if Nat.eqb i a then j else Nat.pred i)))
        (seq a n).
Proof.
  revert a j. induction n as [|n IH]; intros a j; simpl; [reflexivity|].
  rewrite Nat.eqb_refl. f_equal.
  rewrite IH. apply map_ext_in. intros i Hi.
  apply in_seq in Hi.
  destruct (Nat.eqb_spec i (S a)) as [E|E]; destruct (Nat.eqb_spec i a);
    try lia; subst; reflexivity.
Qed.

Lemma edges_unfold (coord : list (point F)) :
  edges coord = edges_from coord (length coord - 1) (range (length coord)).
Proof.
  unfold edges, range. rewrite edges_from_seq.
  apply map_ext. intros [|i]; reflexivity.
Qed.

(** Away from the two early returns the loop only flips [c], once per
    counted edge. *)
Lemma for_in_parity (x y : F) (coord : list (point F)) (idx : list nat) :
  forall (j : nat) (c : bool),
    (forall i, In i idx -> is_corner x y (row coord i) = false) ->
    (forall e, In e (edges_from coord j idx) ->
               on_straddling_edge x y e = false) ->
    exists j',
      for_in idx (contour_step x y coord) (j, c)
      = Continue
          (j', xorb c (Nat.odd (length (filter (counted x y)
                                               (edges_from coord j idx))))).
Proof.
  induction idx as [|i rest IH]; intros j c Hcorner Hedge; simpl.
  - exists j. now rewrite xorb_false_r.
  - rewrite (Hcorner i (or_introl eq_refl)).
    assert (Hi := Hedge _ (or_introl eq_refl)).
    unfold on_straddling_edge in Hi. simpl in Hi.
    unfold counted at 1. simpl fst. simpl snd.
    destruct (straddles y (row coord i) (row coord j)) eqn:Hs; simpl in Hi |- *.
    + rewrite Hi.
      destruct (crosses x y (row coord i) (row coord j)) eqn:Hc.
      * destruct (IH i (negb c)) as [j' E].
        { intros; apply Hcorner; now right. }
        { intros; apply Hedge; now right. }
        exists j'. rewrite E. simpl length. rewrite Nat.odd_succ.
        rewrite <- Nat.negb_odd. now destruct c, (Nat.odd _).
      * destruct (IH i c) as [j' E].
        { intros; apply Hcorner; now right. }
        { intros; apply Hedge; now right. }
        exists j'. now rewrite E.
    + destruct (IH i c) as [j' E].
      { intros; apply Hcorner; now right. }
      { intros; apply Hedge; now right. }
      exists j'. now rewrite E.
Qed.

Lemma row_in (coord : list (point F)) (i : nat) :
  In i (range (length coord)) -> In (row coord i) coord.
Proof.
  unfold range. intros Hi. apply in_seq in Hi. apply nth_In. lia.
Qed.

(** C5.  When the query point is no vertex of the polygon and the slope
    test vanishes on no edge whose endpoints straddle its y-coordinate,
    [is_in_contour] answers the parity of the number of edges that
    straddle the y-coordinate and cross on the counted side: true exactly
    when that number is odd. *)
Theorem is_in_contour_crossing_parity (x y : F) (coord : list (point F)) :
  (forall v, In v coord -> is_corner x y v = false) ->
  (forall e, In e (edges coord) -> on_straddling_edge x y e = false) ->
  is_in_contour x y coord = Nat.odd (crossings x y coord).
Proof.
  intros Hcorner Hedge. unfold is_in_contour, crossings.
  rewrite edges_unfold in *.
  destruct (for_in_parity x y coord (range (length coord))
              (length coord - 1) false) as [j' E].
  - intros i Hi. apply Hcorner. now apply row_in.
  - exact Hedge.
  - rewrite E. reflexivity.
Qed.

(** A query point equal to a vertex is reported inside, whatever the
    polygon. *)
Lemma for_in_corner (x y : F) (coord : list (point F)) (idx : list nat) :
  forall s : nat * bool,
    (exists i, In i idx /\ is_corner x y (row coord i) = true) ->
    for_in idx (contour_step x y coord) s = Return true.
Proof.
  induction idx as [|i rest IH]; intros [j c] [k [Hk Hc]].
  - destruct Hk.
  - simpl. destruct (is_corner x y (row coord i)) eqn:Ei; [reflexivity|].
    assert (Hrest : exists i0, In i0 rest /\ is_corner x y (row coord i0) = true).
    { destruct Hk as [->|Hk]; [congruence|]. now exists k. }
    destruct (straddles y (row coord i) (row coord j)).
    + destruct (slope x y (row coord i) (row coord j) == lit 0);
        [reflexivity|].
      destruct (crosses x y (row coord i) (row coord j)); now apply IH.
    + now apply IH.
Qed.

(** X1.  A query point whose coordinates compare equal to those of some
    vertex is reported inside, for every polygon: either an earlier
    iteration has already returned true or the corner test of that vertex
    does. *)
Lemma is_in_contour_vertex (x y : F) (coord : list (point F)) (v : point F) :
  In v coord -> is_corner x y v = true -> is_in_contour x y coord = true.
Proof.
  intros Hin Hc. unfold is_in_contour.
  destruct (In_nth _ _ origin Hin) as [i [Hi Hnth]].
  rewrite (for_in_corner x y coord (range (length coord))); [reflexivity|].
  exists i. split.
  - unfold range. apply in_seq. lia.
  - unfold row. now rewrite Hnth.
Qed.

End ContourFacts.

(** The three values the documentation gives for the square *)
Lemma square_values :
  is_in_contour (F:=Q) 0 0 square = true
  /\ is_in_contour (F:=Q) 2 2 square = false
  /\ is_in_contour (F:=Q) 1 0 square = true.
Proof. vm_compute. auto. Qed.

Lemma square_values_b64 :
  is_in_contour 0%float 0%float square = true
  /\ is_in_contour 2%float 2%float square = false
  /\ is_in_contour 1%float 0%float square = true.
Proof. vm_compute. auto. Qed.

Lemma is_in_contour_crossing_parity_witness :
  is_in_contour (F:=Q) 0 0 square = Nat.odd (crossings (F:=Q) 0 0 square).
Proof.
  apply (@is_in_contour_crossing_parity Q Q_float 0 0 square).
  - intros v Hv. simpl in Hv.
    repeat (destruct Hv as [<-|Hv]; [vm_compute; reflexivity|]).
    destruct Hv.
  - intros e He. vm_compute in He.
    repeat (destruct He as [<-|He]; [vm_compute; reflexivity|]).
    destruct He.
Defined.

(** C6.  The point (0,1) lies on the edge of the square that joins (-1,1)
    to (1,1): it has the y-coordinate of both endpoints and its x-coordinate
    is between theirs.  It is no vertex.  [is_in_contour] reports it
    outside, in exact arithmetic and in binary64: a horizontal edge never
    passes the straddle test, so the boundary test is not reached for it. *)
Theorem is_in_contour_misses_horizontal_edge :
  In (of_int (-1), of_int 1, (of_int 1, of_int 1)) (edges (F:=Q) square)
  /\ forallb (fun e => negb (straddles (F:=Q) 1 (fst e) (snd e))) (edges square)
     = true
  /\ is_in_contour (F:=Q) 0 1 square = false
  /\ is_in_contour 0%float 1%float square = false
  /\ is_in_contour (F:=Q) 0 (-1) square = true.
Proof.
  split; [|vm_compute; auto].
  vm_compute. do 3 right. left. reflexivity.
Qed.

(** ** The grid builder *)

Section GridFacts.
Context {F : Type} `{PyFloat F}.
Local Open Scope py_scope.

Variable coord : list (point F).
Variable Gscale : F.

Lemma walk_shift (start : F) (k : nat) :
  walk Gscale (start + Gscale) k = walk Gscale start (S k).
Proof. unfold walk. now rewrite Nat.iter_succ_r. Qed.

(** One row: the inner loop appends the interior points of the row, left
    to right. *)
Lemma inner_loop (y : F) (idx : list nat) :
  forall (x : F) (g : list (point F)),
    fold_left (fun s (_ : nat) => grid_cell coord Gscale y s) idx (x, g)
    = (walk Gscale x (length idx),
       g ++ filter (inside coord)
              (map (fun j => (walk Gscale x j, y)) (range (length idx)))).
Proof.
  unfold range.
  induction idx as [|i rest IH]; intros x g; simpl.
  - now rewrite app_nil_r.
  - rewrite IH, walk_shift. f_equal.
    rewrite <- seq_shift, map_map.
    rewrite (map_ext (fun j => (walk Gscale (x + Gscale) j, y))
                     (fun j => (walk Gscale x (S j), y)))
      by (intro; now rewrite walk_shift).
    unfold inside at 2. simpl fst. simpl snd.
    destruct (is_in_contour x y coord).
    + now rewrite <- app_assoc.
    + reflexivity.
Qed.

(** All rows: the outer loop appends the rows bottom to top, each starting
    again from [start]. *)
Lemma outer_loop (nnodes : Z) (idx : list nat) :
  forall (y : F) (g : list (point F)),
    fold_left (fun s (_ : nat) => grid_row coord Gscale nnodes s) idx
              (corner Gscale nnodes, y, g)
    = (corner Gscale nnodes, walk Gscale y (length idx),
       g ++ filter (inside coord)
              (flat_map
                 (fun i => map (fun j => (walk Gscale (corner Gscale nnodes) j,
                                          walk Gscale y i))
                               (range (Z.to_nat nnodes)))
                 (range (length idx)))).
Proof.
  unfold range.
  induction idx as [|i rest IH]; intros y g; simpl.
  - now rewrite app_nil_r.
  - rewrite inner_loop. fold (corner Gscale nnodes).
    rewrite IH, walk_shift. f_equal.
    rewrite filter_app, app_assoc. unfold range.
    rewrite length_seq. f_equal. f_equal.
    rewrite <- seq_shift.
    rewrite (flat_map_concat_map _ (map S _)), map_map,
      <- flat_map_concat_map.
    apply flat_map_ext. intros a. apply map_ext. intros j.
    now rewrite walk_shift.
Qed.

End GridFacts.

Section GridSpec.
Context {F : Type} `{PyFloat F}.
Local Open Scope py_scope.

(** Whenever [2/Gscale] and [int()] go through, the grid is the lattice
    filtered by the point-in-polygon test, in the order of the lattice. *)
Lemma create_grid_lattice (coord : list (point F)) (ls : F) (nnodes : Z) :
  let Gscale := lit (1 # 100) * ls in
  (Gscale == lit 0) = false ->
  f_int (of_int 2 / Gscale) = OK nnodes ->
  create_grid coord ls
  = OK (filter (inside coord)
               (lattice (Z.to_nat nnodes) Gscale (corner Gscale nnodes))).
Proof.
  intros Gscale Hnz Hint. unfold create_grid. fold Gscale.
  rewrite Hnz, Hint. fold (corner Gscale nnodes).
  rewrite outer_loop. simpl app. unfold range. rewrite length_seq.
  reflexivity.
Qed.

Lemma lattice_length (n : nat) (Gscale start : F) :
  length (lattice n Gscale start) = (n * n)%nat.
Proof.
  assert (E : forall rows : list nat,
             length (flat_map
                       (fun i => map (fun j => (walk Gscale start j,
                                                walk Gscale start i))
                                     (range n)) rows)
             = (length rows * n)%nat).
  { induction rows as [|r rows IH]; simpl; [reflexivity|].
    unfold range in *.
    now rewrite length_app, length_map, length_seq, IH. }
  unfold lattice. rewrite E. unfold range. now rewrite length_seq.
Qed.


Lemma filter_all_false {A} (f : A -> bool) (l : list A) :
  (forall a, In a l -> f a = false) -> filter f l = [].
Proof.
  induction l as [|a l IH]; intros Hf; [reflexivity|]. simpl.
  rewrite (Hf a (or_introl eq_refl)). apply IH.
  intros b Hb. apply Hf. now right.
Qed.


End GridSpec.



(** ** The scorer *)

Section ArrayFacts.
Context {A : Type}.

Lemma list_set_app (l1 l2 : list A) (a v : A) (k : nat) :
  k = length l1 -> list_set (l1 ++ a :: l2) k v = l1 ++ v :: l2.
Proof.
  intros ->.
  induction l1 as [|b l1 IH]; simpl; [reflexivity|now rewrite IH].
Qed.

(** Filling a fresh array entry by entry gives the array of the values. *)
Lemma fill_by_index (z : A) (f : nat -> A) (n k : nat) :
  (k <= n)%nat ->
  fold_left (fun d i => list_set d i (f i)) (range k) (repeat z n)
  = map f (range k) ++ repeat z (n - k).
Proof.
  unfold range. induction k as [|k IH]; intros Hk.
  - simpl. now rewrite Nat.sub_0_r.
  - rewrite seq_S, fold_left_app, IH by lia. simpl.
    replace (n - k)%nat with (S (n - S k)) by lia. simpl repeat.
    rewrite list_set_app by now rewrite length_map, length_seq.
    rewrite map_app, <- app_assoc. reflexivity.
Qed.

Lemma fill_by_index_r (z : A) (f : nat -> result A) (g : nat -> A)
    (n k : nat) :
  (k <= n)%nat ->
  (forall i, (i < k)%nat -> f i = OK (g i)) ->
  for_r (range k)
        (fun i d => match f i with
                    | OK v => OK (list_set d i v)
                    | Raise e => Raise e
                    end)
        (repeat z n)
  = OK (map g (range k) ++ repeat z (n - k)).
Proof.
  unfold range. intros Hk Hf.
  assert (E : forall idx1 idx2 (body : nat -> list A -> result (list A)) s s',
             for_r idx1 body s = OK s' ->
             for_r (idx1 ++ idx2) body s = for_r idx2 body s').
  { induction idx1 as [|i idx1 IH1]; simpl; intros idx2 body s s' E1.
    - now inversion E1.
    - destruct (body i s); [now apply IH1|discriminate]. }
  induction k as [|k IH].
  - simpl. now rewrite Nat.sub_0_r.
  - rewrite seq_S. erewrite E by (apply IH; [lia|intros; apply Hf; lia]).
    simpl. rewrite Hf by lia.
    replace (n - k)%nat with (S (n - S k)) by lia. simpl repeat.
    rewrite list_set_app by now rewrite length_map, length_seq.
    rewrite map_app, <- app_assoc. reflexivity.
Qed.

Lemma pair_induction (P : list A -> Prop) :
  P [] -> (forall a, P [a]) ->
  (forall a b l, P l -> P (a :: b :: l)) ->
  forall l, P l.
Proof.
  intros H0 H1 H2 l.
  assert (E : P l /\ forall a, P (a :: l)).
  { induction l as [|b l [IH1 IH2]]; split; auto. }
  apply E.
Qed.

End ArrayFacts.

Section ScorerFacts.
Context {F : Type} `{PyFloat F} `{PySqrt F}.
Local Open Scope py_scope.

Lemma half_length_cons2 (a b : F) (l : list F) :
  (length (a :: b :: l) / 2 = S (length l / 2))%nat.
Proof.
  change (length (a :: b :: l)) with (S (S (length l))).
  replace (S (S (length l))) with (1 * 2 + length l)%nat by lia.
  now rewrite Nat.div_add_l by lia.
Qed.

(** The pairs [(nodes[2i], nodes[2i+1])] the loop reads are the targets. *)
Lemma targets_by_index (nodes : list F) :
  targets nodes
  = map (fun i => (flat nodes (2 * i), flat nodes (2 * i + 1)))
        (range (length nodes / 2)).
Proof.
  unfold range.
  induction nodes as [|a|a b l IH] using pair_induction;
    [reflexivity|reflexivity|].
  rewrite half_length_cons2, <- cons_seq, map_cons.
  change (targets (a :: b :: l)) with ((a, b) :: targets l).
  f_equal. rewrite IH, <- seq_shift, map_map. apply map_ext. intros i.
  replace (2 * S i)%nat with (S (S (2 * i))) by lia. reflexivity.
Qed.

Lemma targets_nil_iff (nodes : list F) :
  targets nodes = [] <-> (length nodes < 2)%nat.
Proof.
  destruct nodes as [|a [|b l]]; simpl; split; intros E;
    try reflexivity; try lia; try discriminate.
Qed.

Lemma score_of_node_min (node : point F) (nodes : list F) :
  score_of_node node nodes = py_min (distances node nodes).
Proof.
  unfold score_of_node, distances.
  rewrite fill_by_index by lia.
  rewrite Nat.sub_diag, app_nil_r, targets_by_index, map_map.
  reflexivity.
Qed.

Lemma py_min_raises (l : list F) :
  is_error (py_min l) = true <-> l = [].
Proof. destruct l; simpl; split; intros E; congruence. Qed.

(** What the order laws give: [<] is negatively transitive. *)
Lemma ordered_negtrans (L : list F) (a b c : F) :
  totally_ordered L -> In a L -> In b L -> In c L ->
  (a <? b) = false -> (b <? c) = false -> (a <? c) = false.
Proof.
  intros (_ & _ & Hle & _ & Htr) Ha Hb Hc Hab Hbc.
  assert (Hba : (b <=? a) = true) by (rewrite Hle, Hab; auto).
  assert (Hcb : (c <=? b) = true) by (rewrite Hle, Hbc; auto).
  assert (Hca := Htr c b a Hc Hb Ha Hcb Hba).
  rewrite Hle in Hca by assumption. now destruct (a <? c).
Qed.

(** [min] returns one of the elements, whatever the comparisons do. *)
Lemma fold_min_in (t : list F) :
  forall x : F,
    In (fold_left (fun m d => if d <? m then d else m) t x) (x :: t).
Proof.
  induction t as [|y t IH]; intros x; [now left|].
  simpl fold_left. destruct (IH (if y <? x then y else x)) as [E|Hin].
  - rewrite <- E. destruct (y <? x); [right|]; now left.
  - now right; right.
Qed.

(** On values the comparisons order, no element is below it. *)
Lemma fold_min_least (L : list F) (t : list F) :
  totally_ordered L ->
  forall x : F,
    incl (x :: t) L ->
    forall d, In d (x :: t) ->
      (d <? fold_left (fun m d => if d <? m then d else m) t x) = false.
Proof.
  intros HL. induction t as [|y t IH]; intros x Hincl d Hd.
  - destruct Hd as [<-|[]]. apply HL, Hincl. now left.
  - simpl fold_left.
    assert (Hx : In x L) by (apply Hincl; now left).
    assert (Hy : In y L) by (apply Hincl; right; now left).
    assert (Ht : incl t L) by (intros a Ha; apply Hincl; now right; right).
    set (x' := if y <? x then y else x).
    assert (Hx' : In x' L) by (unfold x'; now destruct (y <? x)).
    assert (Hincl' : incl (x' :: t) L)
      by (intros a [<-|Ha]; [exact Hx'|now apply Ht]).
    assert (Hm := IH x' Hincl' x' (or_introl eq_refl)).
    set (r := fold_left _ t x') in *.
    assert (Hr : In r L) by (apply Hincl'; apply fold_min_in).
    destruct HL as (Heq & Hirr & Hle & Hlt & Htr).
    assert (HL : totally_ordered L) by (repeat split; assumption).
    destruct Hd as [<-|[<-|Hd]].
    + unfold x' in Hm. destruct (y <? x) eqn:Eyx; [|exact Hm].
      destruct (x <? r) eqn:Exr; [|reflexivity].
      rewrite (Hlt y x r Hy Hx Hr Eyx Exr) in Hm. discriminate.
    + unfold x' in Hm. destruct (y <? x) eqn:Eyx; [exact Hm|].
      apply ordered_negtrans with (L := L) (b := x); assumption.
    + apply (IH x' Hincl'). now right.
Qed.

(** C4.  With at least one target, [calculate_score_array] returns one
    score per grid point; each score is one of the Euclidean distances
    from that grid point to the targets, and when the comparisons order
    those distances (none of them is a NaN) no distance is below it.  The
    call raises exactly when there is no target and the grid is not empty,
    and then it raises [ValueError]; on an empty grid it returns the empty
    array whatever the targets. *)
Theorem calculate_score_array_spec (g : list (point F)) (nodes : list F) :
  (targets nodes <> [] ->
   exists S,
     calculate_score_array g nodes = OK S
     /\ length S = length g
     /\ forall i, (i < length g)%nat ->
          In (nth i S (lit 0)) (distances (row g i) nodes)
          /\ (totally_ordered (distances (row g i) nodes) ->
              forall d, In d (distances (row g i) nodes) ->
                        (d <? nth i S (lit 0)) = false))
  /\ (is_error (calculate_score_array g nodes) = true
      <-> targets nodes = [] /\ g <> [])
  /\ (targets nodes = [] -> g <> [] ->
      calculate_score_array g nodes = Raise ValueError)
  /\ (g = [] -> calculate_score_array g nodes = OK []).
Proof.
  assert (Hhalf : (2 * length g / 2 = length g)%nat)
    by (rewrite Nat.mul_comm; apply Nat.div_mul; lia).
  set (least := fun (r : F) (l : list F) =>
                  In r l /\ (totally_ordered l ->
                             forall d, In d l -> (d <? r) = false)).
  assert (Hsome : targets nodes <> [] ->
            exists m : point F -> F,
              (forall p, score_of_node p nodes = OK (m p))
              /\ forall p, least (m p) (distances p nodes)).
  { intros Hne.
    exists (fun p => match py_min (distances p nodes) with
                     | OK r => r
                     | Raise _ => lit 0
                     end).
    split; intros p; rewrite ?score_of_node_min;
      assert (Hd : distances p nodes <> [])
        by (unfold distances; destruct (targets nodes);
            [congruence|discriminate]);
      destruct (distances p nodes) as [|x t]; try congruence;
      [reflexivity|].
    simpl py_min. split; [apply fold_min_in|].
    intros HL. apply (fold_min_least HL). apply incl_refl. }
  assert (Hok : targets nodes <> [] ->
            exists S,
              calculate_score_array g nodes = OK S
              /\ length S = length g
              /\ forall i, (i < length g)%nat ->
                   least (nth i S (lit 0)) (distances (row g i) nodes)).
  { intros Hne. destruct (Hsome Hne) as [m [Hm Hmin]].
    exists (map (fun i => m (row g i)) (range (length g))).
    unfold calculate_score_array. rewrite Hhalf.
    rewrite (fill_by_index_r (lit 0)
               (fun i => score_of_node (fst (row g i), snd (row g i)) nodes)
               (fun i => m (row g i))) by (intros; try lia;
                 rewrite <- surjective_pairing; apply Hm).
    rewrite Nat.sub_diag, app_nil_r. split; [reflexivity|].
    unfold range. split; [now rewrite length_map, length_seq|].
    intros i Hi.
    rewrite (nth_indep _ (lit 0) (m (row g 0)))
      by now rewrite length_map, length_seq.
    rewrite (map_nth (fun i => m (row g i)) (seq 0 (length g)) 0%nat i).
    rewrite seq_nth by exact Hi. apply Hmin. }
  assert (Hnil : g = [] -> calculate_score_array g nodes = OK [])
    by (intros ->; reflexivity).
  assert (Hraise : targets nodes = [] -> g <> [] ->
            calculate_score_array g nodes = Raise ValueError).
  { intros Ht Hg. destruct g as [|p g']; [congruence|].
    unfold calculate_score_array. rewrite Hhalf.
    change (range (length (p :: g'))) with (0%nat :: seq 1 (length g')).
    simpl for_r. rewrite score_of_node_min. unfold distances.
    rewrite Ht. reflexivity. }
  split; [exact Hok|]. split; [|split; [exact Hraise|exact Hnil]].
  split.
  - intros Herr. destruct (targets nodes) eqn:Et.
    + split; [reflexivity|]. intros ->. rewrite Hnil in Herr by reflexivity.
      discriminate.
    + destruct Hok as [S [E _]]; [discriminate|]. rewrite E in Herr.
      discriminate.
  - intros [Ht Hg]. now rewrite Hraise.
Qed.

End ScorerFacts.

(** *** Binary64 values other than NaN are ordered by the comparisons *)

Section Binary64Order.

Ltac compare_cases :=
  repeat match goal with
  | |- context [Z.compare ?a ?b] => destruct (Z.compare_spec a b)
  | H : context [Z.compare ?a ?b] |- _ => destruct (Z.compare_spec a b)
  | |- context [Pos.compare_cont Eq ?a ?b] =>
      change (Pos.compare_cont Eq a b) with (Pos.compare a b)
  | H : context [Pos.compare_cont Eq ?a ?b] |- _ =>
      change (Pos.compare_cont Eq a b) with (Pos.compare a b) in H
  | |- context [Pos.compare ?a ?b] => destruct (Pos.compare_spec a b)
  | H : context [Pos.compare ?a ?b] |- _ => destruct (Pos.compare_spec a b)
  end.

Ltac by_comparison :=
  simpl in *; compare_cases; simpl in *; subst;
  try reflexivity; try discriminate; try congruence; try lia.

Lemma SFeqb_refl (x : spec_float) : x <> S754_nan -> SFeqb x x = true.
Proof.
  unfold SFeqb. destruct x as [s|s| |s m e]; intros Hx; try congruence;
    try (destruct s; reflexivity).
  destruct s; by_comparison.
Qed.

Lemma SFltb_irrefl (x : spec_float) : SFltb x x = false.
Proof.
  unfold SFltb.
  destruct x as [s|s| |s m e]; try (destruct s; reflexivity);
    try reflexivity.
  destruct s; by_comparison.
Qed.

Lemma SFleb_ltb (x y : spec_float) :
  x <> S754_nan -> y <> S754_nan -> SFleb x y = negb (SFltb y x).
Proof.
  unfold SFleb, SFltb.
  destruct x as [s|s| |s m e]; destruct y as [s'|s'| |s' m' e'];
    intros Hx Hy; try congruence;
    try (destruct s; reflexivity); try (destruct s'; reflexivity);
    try (destruct s, s'; reflexivity).
  destruct s, s'; by_comparison.
Qed.

Lemma SFltb_trans (x y z : spec_float) :
  SFltb x y = true -> SFltb y z = true -> SFltb x z = true.
Proof.
  unfold SFltb.
  destruct x as [s|s| |s m e]; destruct y as [s'|s'| |s' m' e'];
    destruct z as [s''|s''| |s'' m'' e''];
    try destruct s; try destruct s'; try destruct s''; simpl;
    try congruence; intros H1 H2; by_comparison.
Qed.

Lemma SFleb_trans (x y z : spec_float) :
  SFleb x y = true -> SFleb y z = true -> SFleb x z = true.
Proof.
  unfold SFleb.
  destruct x as [s|s| |s m e]; destruct y as [s'|s'| |s' m' e'];
    destruct z as [s''|s''| |s'' m'' e''];
    try destruct s; try destruct s'; try destruct s''; simpl;
    try congruence; intros H1 H2; by_comparison.
Qed.

Lemma b64_not_nan (x : float) :
  f_is_nan x = false -> Prim2SF x <> S754_nan.
Proof.
  unfold f_is_nan. simpl feqb. rewrite eqb_spec. intros E Hx.
  rewrite Hx in E. discriminate.
Qed.

(** A list of binary64 values without a NaN is ordered by [<], [<=] and
    [==]. *)
Lemma b64_totally_ordered (l : list float) :
  forallb (fun x => negb (f_is_nan x)) l = true -> totally_ordered l.
Proof.
  intros Hl.
  assert (Hn : forall a, In a l -> Prim2SF a <> S754_nan).
  { intros a Ha. apply b64_not_nan.
    rewrite forallb_forall in Hl. specialize (Hl a Ha).
    now destruct (f_is_nan a). }
  repeat split; simpl feqb; simpl fltb; simpl fleb.
  - intros a Ha. rewrite eqb_spec. now apply SFeqb_refl, Hn.
  - intros a _. rewrite ltb_spec. apply SFltb_irrefl.
  - intros a b Ha Hb. rewrite leb_spec, ltb_spec.
    apply SFleb_ltb; now apply Hn.
  - intros a b c _ _ _. rewrite !ltb_spec. apply SFltb_trans.
  - intros a b c _ _ _. rewrite !leb_spec. apply SFleb_trans.
Qed.

End Binary64Order.

Lemma calculate_score_array_spec_witness :
  exists S : list float,
    calculate_score_array [(0, 0); (3, 4)]%float [3; 4; 6; 8]%float = OK S
    /\ length S = 2%nat
    /\ forall i, (i < 2)%nat ->
         In (nth i S 0%float)
            (distances (row [(0, 0); (3, 4)]%float i) [3; 4; 6; 8]%float)
         /\ forall d,
              In d (distances (row [(0, 0); (3, 4)]%float i)
                              [3; 4; 6; 8]%float) ->
              PrimFloat.ltb d (nth i S 0%float) = false.
Proof.
  destruct (proj1 (@calculate_score_array_spec float b64_float b64_sqrt
                     [(0, 0); (3, 4)]%float [3; 4; 6; 8]%float))
    as (S & E & Hlen & Hmin); [discriminate|].
  exists S. split; [exact E|]. split; [exact Hlen|].
  intros i Hi. destruct (Hmin i Hi) as [Hin Hleast].
  split; [exact Hin|]. apply Hleast. apply b64_totally_ordered.
  destruct i as [|[|i]]; [reflexivity|reflexivity|lia].
Defined.

Lemma score_example :
  calculate_score_array [(0, 0); (3, 4)]%float [3; 4; 6; 8]%float
  = OK [5; 0]%float.
Proof. vm_compute. reflexivity. Qed.

(** C4, as stated, fails on the empty grid: with no target and no grid
    point nothing is scored and the empty array is returned. *)
Lemma calculate_score_array_empty_grid_no_error :
  targets (F:=float) [] = []
  /\ calculate_score_array (F:=float) [] [] = OK []
  /\ ~ (is_error (calculate_score_array (F:=float) [] []) = true
        <-> targets (F:=float) [] = []).
Proof.
  repeat split. intros [_ E]. specialize (E eq_refl). discriminate.
Qed.

(** ** Pruning the grid *)

Section DeleteFacts.
Context {A : Type}.

Lemma collect_indices (p : nat -> bool) (idx : list nat) :
  forall acc : list nat,
    fold_left (fun acc i => if p i then acc ++ [i] else acc) idx acc
    = acc ++ filter p idx.
Proof.
  induction idx as [|i idx IH]; intros acc; simpl.
  - now rewrite app_nil_r.
  - rewrite IH. destruct (p i); [|reflexivity].
    now rewrite <- app_assoc.
Qed.

Lemma existsb_filter (p : nat -> bool) (i : nat) (l : list nat) :
  existsb (Nat.eqb i) (filter p l) = p i && existsb (Nat.eqb i) l.
Proof.
  induction l as [|j l IH]; simpl; [now rewrite andb_false_r|].
  destruct (Nat.eqb_spec i j) as [->|Hne].
  - destruct (p j) eqn:Ep; simpl.
    + now rewrite Nat.eqb_refl.
    + exact IH.
  - destruct (p j); simpl; [|exact IH].
    destruct (Nat.eqb_spec i j); [contradiction|exact IH].
Qed.

Lemma existsb_seq (i a n : nat) :
  (a <= i < a + n)%nat -> existsb (Nat.eqb i) (seq a n) = true.
Proof.
  intros Hi. apply existsb_exists. exists i. split.
  - apply in_seq. lia.
  - apply Nat.eqb_refl.
Qed.

Lemma select_all (keep : nat -> bool) (l : list A) :
  forall a, (forall i, keep i = true) -> select keep a l = l.
Proof.
  unfold select. induction l as [|x l IH]; intros a Hk; [reflexivity|].
  simpl. rewrite Hk. simpl. f_equal. now apply IH.
Qed.

(** Deleting no index returns the array. *)
Lemma np_delete_nil (l : list A) : np_delete l [] = OK l.
Proof.
  unfold np_delete. simpl. now rewrite select_all.
Qed.

(** Deleting the indices that satisfy [p] keeps the others, in order. *)
Lemma np_delete_filter (l : list A) (p : nat -> bool) (n : nat) :
  n = length l ->
  np_delete l (filter p (range n)) = OK (select (fun i => negb (p i)) 0 l).
Proof.
  intros ->. unfold np_delete, range.
  assert (Hin : forallb (fun i => (i <? length l)%nat)
                        (filter p (seq 0 (length l))) = true).
  { apply forallb_forall. intros i Hi. apply filter_In in Hi.
    destruct Hi as [Hi _]. apply in_seq in Hi. apply Nat.ltb_lt. lia. }
  rewrite Hin. unfold select. do 2 f_equal.
  apply filter_ext_in. intros [i x] Hix. simpl.
  apply in_combine_l, in_seq in Hix.
  rewrite existsb_filter, existsb_seq by lia. now rewrite andb_true_r.
Qed.

(** Selecting by index is filtering by value when the index test reads the
    value; two arrays selected by the same test stay aligned. *)
Lemma select_filter {B : Type} (q : A -> bool) (keep : nat -> bool) (d : A) :
  forall (l1 : list A) (l2 : list B) (a : nat),
    length l1 = length l2 ->
    (forall k, (k < length l1)%nat -> keep (a + k)%nat = q (nth k l1 d)) ->
    select keep a l1 = filter q l1
    /\ combine (select keep a l1) (select keep a l2)
       = filter (fun ps => q (fst ps)) (combine l1 l2)
    /\ length (select keep a l1) = length (select keep a l2).
Proof.
  unfold select.
  induction l1 as [|x l1 IH]; intros [|y l2] a Hlen Hkeep;
    try discriminate; [repeat split; reflexivity|].
  simpl in Hlen. injection Hlen as Hlen.
  destruct (IH l2 (S a) Hlen) as [E1 [E2 E3]].
  { intros k Hk. replace (S a + k)%nat with (a + S k)%nat by lia.
    apply (Hkeep (S k)). simpl. lia. }
  assert (E0 : keep a = q x).
  { rewrite <- (Nat.add_0_r a) at 1. apply (Hkeep 0%nat). simpl. lia. }
  simpl. rewrite E0. destruct (q x); simpl; repeat split; congruence.
Qed.

End DeleteFacts.

Section PruneFacts.
Context {F : Type} `{PyFloat F}.
Local Open Scope py_scope.

(** The loop collects the indices that pass the radius test; when
    [radius**2] raises it raises at the first grid point. *)
Lemma prune_loop (g : list (point F)) (vert : point F) (radius : F)
    (idx : list nat) :
  forall acc : list nat,
    for_r idx (prune_step g (fst vert) (snd vert) radius) acc
    = match fpow2 radius with
      | OK r2 =>
          OK (acc ++ filter (fun i => too_close r2 vert (row g i)) idx)
      | Raise e => match idx with [] => OK acc | _ :: _ => Raise e end
      end.
Proof.
  induction idx as [|i idx IH]; intros acc.
  - simpl. rewrite app_nil_r. now destruct (fpow2 radius).
  - simpl for_r. unfold prune_step at 1.
    destruct (fpow2 radius) as [r2|e] eqn:Ep; [|reflexivity].
    rewrite IH. simpl filter. unfold too_close at 2.
    destruct (_ <? r2); [|reflexivity].
    now rewrite <- app_assoc.
Qed.

(** What [remove_points_grid] returns on parallel arrays when
    [radius**2] has the value [r2]: both arrays selected by the same index
    test *)
Lemma remove_points_grid_select (ls r2 : F) (vert : point F)
    (g : list (point F)) (s : list F) :
  fpow2 (lit (1 # 10) * ls) = OK r2 ->
  length g = length s ->
  remove_points_grid ls vert g s
  = OK (select (fun i => negb (too_close r2 vert (row g i))) 0 g,
        select (fun i => negb (too_close r2 vert (row g i))) 0 s).
Proof.
  intros Ep Hlen. unfold remove_points_grid. cbv zeta.
  rewrite prune_loop, Ep. simpl app.
  rewrite (np_delete_filter g _ eq_refl).
  rewrite (np_delete_filter s _ Hlen).
  reflexivity.
Qed.

(** On an empty grid the loop body does not run. *)
Lemma remove_points_grid_nil (ls : F) (vert : point F) (s : list F) :
  remove_points_grid ls vert [] s = OK ([], s).
Proof.
  unfold remove_points_grid. cbv zeta.
  change (range (length (@nil (point F)))) with (@nil nat). simpl for_r.
  cbv iota beta. now rewrite !np_delete_nil.
Qed.

(** When [radius**2] raises, so does the call on a grid that is not
    empty. *)
Lemma remove_points_grid_pow_raises (ls : F) (vert : point F)
    (g : list (point F)) (s : list F) (e : exn) :
  fpow2 (lit (1 # 10) * ls) = Raise e ->
  g <> [] ->
  remove_points_grid ls vert g s = Raise e.
Proof.
  intros Ep Hg. unfold remove_points_grid. cbv zeta.
  rewrite prune_loop, Ep.
  destruct g as [|p g]; [congruence|reflexivity].
Qed.

(** A call on parallel arrays that returns has selected both by one test
    on the grid points. *)
Lemma remove_points_grid_returns (ls : F) (vert : point F)
    (g g' : list (point F)) (s s' : list F) :
  length g = length s ->
  remove_points_grid ls vert g s = OK (g', s') ->
  g' = select (fun i => negb (prune_test ls vert (row g i))) 0 g
  /\ s' = select (fun i => negb (prune_test ls vert (row g i))) 0 s.
Proof.
  intros Hlen E. unfold prune_test.
  destruct (fpow2 (lit (1 # 10) * ls)) as [r2|e] eqn:Ep.
  - rewrite (@remove_points_grid_select ls r2 vert g s Ep Hlen) in E.
    inversion E. auto.
  - destruct g as [|p g].
    + destruct s; [|discriminate]. rewrite remove_points_grid_nil in E.
      inversion E. auto.
    + rewrite (@remove_points_grid_pow_raises ls vert (p :: g) s e Ep) in E
        by discriminate.
      discriminate.
Qed.

(** C8.  On parallel arrays, when [radius**2] has a value
    [remove_points_grid] returns and has removed from both arrays the
    entries at exactly those indices whose grid point satisfies the radius
    test [(gx-x)**2 + (gy-y)**2 < radius**2]: the pairs (grid point, score)
    that remain are the pairs that fail the test, in their original order,
    and the new grid is the old one without the points that pass it.  When
    [radius**2] raises, the call raises the same exception unless the grid
    is empty, in which case it returns the empty arrays. *)
Theorem remove_points_grid_spec (ls : F) (vert : point F)
    (g : list (point F)) (s : list F) :
  length g = length s ->
  (forall r2,
      fpow2 (lit (1 # 10) * ls) = OK r2 ->
      exists g' s',
        remove_points_grid ls vert g s = OK (g', s')
        /\ g' = filter (fun p => negb (too_close r2 vert p)) g
        /\ combine g' s'
           = filter (fun ps => negb (too_close r2 vert (fst ps)))
                    (combine g s)
        /\ length g' = length s')
  /\ (forall e,
        fpow2 (lit (1 # 10) * ls) = Raise e ->
        (g <> [] -> remove_points_grid ls vert g s = Raise e)
        /\ (g = [] -> remove_points_grid ls vert g s = OK ([], []))).
Proof.
  intros Hlen. split.
  - intros r2 Ep.
    destruct (select_filter (fun p => negb (too_close r2 vert p))
                (fun i => negb (too_close r2 vert (row g i))) origin
                g s 0 Hlen) as [E1 [E2 E3]]; [reflexivity|].
    do 2 eexists.
    split; [exact (@remove_points_grid_select ls r2 vert g s Ep Hlen)|].
    split; [exact E1|]. split; [exact E2|exact E3].
  - intros e Ep. split.
    + now apply remove_points_grid_pow_raises.
    + intros ->. destruct s; [|discriminate].
      apply remove_points_grid_nil.
Qed.

End PruneFacts.

Lemma remove_points_grid_spec_witness :
  fpow2 (lit (1 # 10) * 1)%py = OK (1 # 100)%Q
  /\ exists g' s',
       remove_points_grid (F:=Q) 1 (1, 1)%Q grid3 scores_centre = OK (g', s')
       /\ g' = filter (fun p => negb (too_close (1 # 100) (1, 1)%Q p)) grid3
       /\ combine g' s'
          = filter (fun ps => negb (too_close (1 # 100) (1, 1)%Q (fst ps)))
                   (combine grid3 scores_centre)
       /\ length g' = length s'.
Proof.
  split; [reflexivity|].
  apply (proj1 (@remove_points_grid_spec Q Q_float 1%Q (1, 1)%Q grid3
                  scores_centre eq_refl) (1 # 100)%Q).
  reflexivity.
Defined.

Lemma remove_points_grid_example :
  remove_points_grid (F:=Q) 1 (1, 1)%Q grid3 scores_centre
  = OK ([(0, 0); (1, 0); (2, 0); (0, 1); (2, 1); (0, 2); (1, 2); (2, 2)]%Q,
        [10; 10; 1; 1; 1; 1; 1; 1]%Q).
Proof. vm_compute. reflexivity. Qed.

(** C8, as stated, fails when [ls] is large.  With [ls = 2**700] the
    radius [0.1 * ls] is a finite float whose square is not: [radius**2]
    raises [OverflowError] at the first grid point and the call returns
    nothing, although the one grid point is the vertex itself. *)
Lemma remove_points_grid_large_ls_raises :
  PrimFloat.is_infinity (fmul (lit (1 # 10)) 0x1p+700%float) = false
  /\ fpow2 (fmul (lit (1 # 10)) 0x1p+700%float) = Raise OverflowError
  /\ remove_points_grid 0x1p+700%float (0, 0)%float [(0, 0)%float]
                        [0%float]
     = Raise OverflowError.
Proof. vm_compute. auto. Qed.

(** ** Reading the store *)

Section IndexFacts.
Context {A : Type}.

Lemma py_index_nat (d : A) (l : list A) (i : nat) :
  (i < length l)%nat -> py_index l (Z.of_nat i) = OK (nth i l d).
Proof.
  intros Hi. unfold py_index.
  destruct (Z.ltb_spec (Z.of_nat i) 0); [lia|].
  destruct (Z.leb_spec 0 (Z.of_nat i)); [|lia].
  destruct (Z.ltb_spec (Z.of_nat i) (Z.of_nat (length l))); [|lia].
  simpl. rewrite Nat2Z.id.
  destruct (nth_error l i) eqn:E.
  - now rewrite (nth_error_nth _ _ d E).
  - apply nth_error_None in E. lia.
Qed.

Lemma py_index_valid (d : A) (l : list A) (i : Z) :
  valid_index (length l) i -> py_index l i = OK (np_get d l i).
Proof.
  intros [Hlo Hhi]. unfold np_get.
  assert (E : exists a, py_index l i = OK a).
  { unfold py_index.
    set (k := if (i <? 0)%Z then (i + Z.of_nat (length l))%Z else i).
    assert (Hk : (0 <= k < Z.of_nat (length l))%Z)
      by (unfold k; destruct (Z.ltb_spec i 0); lia).
    destruct (Z.leb_spec 0 k); [|lia].
    destruct (Z.ltb_spec k (Z.of_nat (length l))); [|lia]. simpl.
    destruct (nth_error l (Z.to_nat k)) eqn:En; [eauto|].
    apply nth_error_None in En. lia. }
  destruct E as [a E]. now rewrite E.
Qed.

Lemma py_index_raises (l : list A) (i : Z) (e : exn) :
  py_index l i = Raise e -> e = IndexError.
Proof.
  unfold py_index.
  destruct (_ && _); [destruct (nth_error _ _)|]; congruence.
Qed.

Lemma py_index_past_end (l : list A) (i : Z) :
  (Z.of_nat (length l) <= i)%Z -> py_index l i = Raise IndexError.
Proof.
  intros Hi. unfold py_index.
  destruct (Z.ltb_spec i 0); [lia|].
  destruct (Z.ltb_spec i (Z.of_nat (length l))); [lia|].
  now rewrite andb_false_r.
Qed.

Lemma py_del_raises (l : list A) (i : Z) (e : exn) :
  py_del l i = Raise e -> e = IndexError.
Proof. unfold py_del. destruct (_ && _); congruence. Qed.

End IndexFacts.

Section StoreFacts.
Context {F : Type} `{PyFloat F}.

Lemma read_only_ret {A} (a : A) : read_only (ret (F:=F) a).
Proof. intros st a' st' E. now inversion E. Qed.

Lemma read_only_lift {A} (r : result A) : read_only (lift (F:=F) r).
Proof. intros st a st' E. unfold lift in E. destruct r; now inversion E. Qed.

Lemma read_only_bind {A B} (c : M F A) (k : A -> M F B) :
  read_only c -> (forall a, read_only (k a)) -> read_only (bind c k).
Proof.
  intros Hc Hk st b st' E. unfold bind in E.
  destruct (c st) as [[a st1]|e] eqn:Ec; [|discriminate].
  apply Hc in Ec. subst st1. now apply Hk in E.
Qed.

Lemma read_only_for_m {I S} (body : I -> S -> M F S) (idx : list I) :
  (forall i s, read_only (body i s)) ->
  forall s, read_only (for_m idx body s).
Proof.
  intros Hbody. induction idx as [|i idx IH]; intros s; simpl.
  - apply read_only_ret.
  - apply read_only_bind; [apply Hbody|exact IH].
Qed.

Lemma read_only_grid_at (i : Z) : read_only (grid_at (F:=F) i).
Proof. intros st. apply read_only_lift. Qed.

Lemma read_only_scores_at (i : Z) : read_only (scores_at (F:=F) i).
Proof. intros st. apply read_only_lift. Qed.

Lemma read_only_len_grid : read_only (len_grid (F:=F)).
Proof. intros st a st' E. now inversion E. Qed.

Lemma read_only_argmin_scores : read_only argmin_scores.
Proof. intros st. apply read_only_lift. Qed.

Lemma read_only_scan_step (cm : point F) (G : F) (i : nat) (l : list Z) :
  read_only (scan_step cm G i l).
Proof.
  unfold scan_step.
  apply read_only_bind; [apply read_only_grid_at|]. intros gi.
  destruct (feqb _ _); [|apply read_only_ret].
  apply read_only_bind; [apply read_only_grid_at|]. intros gi'.
  destruct (fleb _ _); apply read_only_ret.
Qed.

Lemma read_only_weigh (axis : point F -> F) (label : list Z)
    (lscores : list F) (i : Z) (acc : F * F) :
  read_only (weigh axis label lscores i acc).
Proof.
  unfold weigh. destruct acc as [sum sum_score].
  repeat (apply read_only_bind;
          [first [apply read_only_lift | apply read_only_grid_at]|intros ?]).
  apply read_only_ret.
Qed.

Lemma read_only_place_inner_vertex (ls : F) :
  read_only (place_inner_vertex ls).
Proof.
  unfold place_inner_vertex.
  apply read_only_bind; [apply read_only_argmin_scores|intros m].
  apply read_only_bind; [apply read_only_grid_at|intros cm].
  apply read_only_bind; [apply read_only_grid_at|intros nx].
  apply read_only_bind; [apply read_only_len_grid|intros n].
  apply read_only_bind;
    [apply read_only_for_m; intros; apply read_only_scan_step|intros l].
  apply read_only_bind; [apply read_only_lift|intros l'].
  apply read_only_bind.
  { apply read_only_for_m. intros i acc.
    apply read_only_bind; [apply read_only_scores_at|intros s].
    apply read_only_ret. }
  intros ls'.
  apply read_only_bind;
    [apply read_only_for_m; intros; apply read_only_weigh|intros xa].
  apply read_only_bind;
    [apply read_only_for_m; intros; apply read_only_weigh|intros ya].
  apply read_only_ret.
Qed.

(** C9.  Whenever [place_inner_vertex] returns a point, the store it
    leaves is the store it was given: the grid and the scores (and the
    output array) are unchanged. *)
Theorem place_inner_vertex_read_only (ls : F) (st st' : vars F)
    (p : point F) :
  place_inner_vertex ls st = OK (p, st') ->
  st' = st
  /\ var_grid st' = var_grid st
  /\ var_scores st' = var_scores st.
Proof.
  intros E. apply read_only_place_inner_vertex in E. subst st'. auto.
Qed.

End StoreFacts.

(** ** Running the recoverer *)

Section RunFacts.
Context {F : Type} `{PyFloat F}.
Local Open Scope py_scope.

Lemma run_bind {A B} (c : M F A) (k : A -> M F B) (st st1 : vars F) (a : A) :
  c st = OK (a, st1) -> bind c k st = k a st1.
Proof. intros E. unfold bind. now rewrite E. Qed.

Lemma run_bind_raise {A B} (c : M F A) (k : A -> M F B) (st : vars F)
    (e : exn) :
  c st = Raise e -> bind c k st = Raise e.
Proof. intros E. unfold bind. now rewrite E. Qed.

Lemma run_lift {A} (r : result A) (a : A) (st : vars F) :
  r = OK a -> lift r st = OK (a, st).
Proof. now intros ->. Qed.

Lemma run_grid_at (st : vars F) (i : Z) :
  valid_index (length (var_grid st)) i ->
  grid_at i st = OK (np_get origin (var_grid st) i, st).
Proof.
  intros Hi. unfold grid_at. apply run_lift. now apply py_index_valid.
Qed.

Lemma run_grid_at_nat (st : vars F) (i : nat) :
  (i < length (var_grid st))%nat ->
  grid_at (Z.of_nat i) st = OK (row (var_grid st) i, st).
Proof.
  intros Hi. unfold grid_at. apply run_lift. now apply py_index_nat.
Qed.

Lemma run_scores_at (st : vars F) (i : Z) :
  valid_index (length (var_scores st)) i ->
  scores_at i st = OK (np_get (lit 0) (var_scores st) i, st).
Proof.
  intros Hi. unfold scores_at. apply run_lift. now apply py_index_valid.
Qed.

Lemma np_argmin_nonneg (l : list F) (m : Z) :
  np_argmin l = OK m -> (0 <= m)%Z.
Proof.
  destruct l; simpl; intros E; inversion E. apply Nat2Z.is_nonneg.
Qed.

(** C10.  Let [m] be the index of the least score.  When [m] is the last
    index of the grid, the read of [grid[m+1]] that infers the spacing is
    one past the end and [place_inner_vertex] raises [IndexError]; when
    [m + 1] is below the length of the grid that read succeeds. *)
Theorem place_inner_vertex_last_index (ls : F) (st : vars F) (m : Z) :
  np_argmin (var_scores st) = OK m ->
  ((m + 1)%Z = Z.of_nat (length (var_grid st)) ->
   py_index (var_grid st) (m + 1) = Raise IndexError
   /\ place_inner_vertex ls st = Raise IndexError)
  /\ ((m + 1 < Z.of_nat (length (var_grid st)))%Z ->
      exists next, py_index (var_grid st) (m + 1) = OK next
                   /\ grid_at (m + 1) st = OK (next, st)).
Proof.
  intros Hm. assert (Hm0 := np_argmin_nonneg _ Hm). split.
  - intros Hlast.
    assert (Hpast : py_index (var_grid st) (m + 1) = Raise IndexError)
      by (apply py_index_past_end; lia).
    split; [exact Hpast|].
    unfold place_inner_vertex.
    rewrite (run_bind _ _ st (a:=m) (st1:=st))
      by (unfold argmin_scores; now apply run_lift).
    assert (Hv : valid_index (length (var_grid st)) m)
      by (unfold valid_index; lia).
    rewrite (run_bind _ _ st (run_grid_at st Hv)).
    apply run_bind_raise. unfold grid_at. now rewrite Hpast.
  - intros Hlt. eexists. split.
    + apply (py_index_valid origin). unfold valid_index. lia.
    + apply run_grid_at. unfold valid_index. lia.
Qed.

End RunFacts.

Lemma place_inner_vertex_last_index_witness :
  np_argmin (F:=Q) scores_last = OK 8%Z
  /\ place_inner_vertex (F:=Q) 1 (Vars grid3 scores_last []) = Raise IndexError.
Proof.
  split; [reflexivity|].
  exact (proj2 (proj1 (@place_inner_vertex_last_index Q Q_float 1%Q
                         (Vars grid3 scores_last []) 8%Z eq_refl)
                      eq_refl)).
Defined.

Section RecovererFacts.
Context {F : Type} `{PyFloat F}.
Local Open Scope py_scope.

Lemma run_scan_step (st : vars F) (cm : point F) (G : F) (i : nat)
    (acc : list Z) :
  (i < length (var_grid st))%nat ->
  scan_step cm G i acc st
  = OK (acc ++ slots (filter (in_column (var_grid st) cm G) [i]), st).
Proof.
  intros Hi. unfold scan_step.
  rewrite (run_bind _ _ st (run_grid_at_nat st Hi)).
  simpl filter. unfold in_column at 1.
  destruct (fst (row (var_grid st) i) == fst cm); simpl andb.
  - rewrite (run_bind _ _ st (run_grid_at_nat st Hi)).
    destruct (fabs (snd (row (var_grid st) i) - snd cm)
              <=? lit (11 # 10) * G); simpl.
    + reflexivity.
    + now rewrite app_nil_r.
  - simpl. now rewrite app_nil_r.
Qed.

(** The scan collects the slots of the column, in grid order. *)
Lemma run_scan (st : vars F) (cm : point F) (G : F) (idx : list nat) :
  forall acc : list Z,
    (forall i, In i idx -> (i < length (var_grid st))%nat) ->
    for_m idx (scan_step cm G) acc st
    = OK (acc ++ slots (filter (in_column (var_grid st) cm G) idx), st).
Proof.
  induction idx as [|i idx IH]; intros acc Hidx; simpl for_m.
  - unfold ret. simpl. now rewrite app_nil_r.
  - rewrite (run_bind _ _ st (run_scan_step st cm G acc
                                (Hidx i (or_introl eq_refl)))).
    rewrite IH by (intros; apply Hidx; now right).
    rewrite <- app_assoc. do 3 f_equal. unfold slots.
    rewrite <- flat_map_app. f_equal.
    now rewrite <- filter_app.
Qed.

(** The comprehension reads the score behind each label. *)
Lemma run_scores (st : vars F) (label : list Z) :
  forall acc : list F,
    Forall (valid_index (length (var_scores st))) label ->
    for_m label (fun i acc => bind (scores_at i) (fun s => ret (acc ++ [s])))
          acc st
    = OK (acc ++ map (np_get (lit 0) (var_scores st)) label, st).
Proof.
  induction label as [|l label IH]; intros acc Hv; simpl for_m.
  - unfold ret. now rewrite app_nil_r.
  - inversion Hv as [|? ? Hl Hrest]; subst.
    rewrite (run_bind _ _ st (a := acc ++ [np_get (lit 0) (var_scores st) l])
               (st1 := st))
      by (now rewrite (run_bind _ _ st (run_scores_at st Hl))).
    rewrite IH by assumption. now rewrite <- app_assoc.
Qed.

Lemma run_weigh (axis : point F -> F) (label : list Z) (lscores : list F)
    (i : Z) (acc : F * F) (st : vars F) (s : F) (l : Z) :
  py_index lscores i = OK s ->
  py_index label i = OK l ->
  valid_index (length (var_grid st)) l ->
  weigh axis label lscores i acc st
  = OK ((fst acc + s * axis (np_get origin (var_grid st) l), snd acc + s),
        st).
Proof.
  intros Es El Hl. unfold weigh. destruct acc as [sum sum_score].
  rewrite Es, El. simpl lift.
  rewrite (run_bind _ _ st (a := s) (st1 := st)) by reflexivity.
  rewrite (run_bind _ _ st (a := l) (st1 := st)) by reflexivity.
  rewrite (run_bind _ _ st (run_grid_at st Hl)).
  rewrite (run_bind _ _ st (a := s) (st1 := st)) by reflexivity.
  reflexivity.
Qed.

Lemma py_del_fifth {A} (a b c d e f g h i : A) :
  py_del [a; b; c; d; e; f; g; h; i] 4 = OK [a; b; c; d; f; g; h; i].
Proof. reflexivity. Qed.

(** An interpolation loop whose reads are all in range adds one term per
    position to each of the two sums. *)
Lemma run_weigh_loop (axis : point F -> F) (label : list Z)
    (lscores : list F) (st : vars F) (idx : list Z) :
  forall acc : F * F,
    Forall (fun i => exists s l,
                py_index lscores i = OK s /\ py_index label i = OK l
                /\ valid_index (length (var_grid st)) l) idx ->
    for_m idx (weigh axis label lscores) acc st
    = OK (fold_left
            (fun a i =>
               (fst a + np_get (lit 0) lscores i
                        * axis (np_get origin (var_grid st)
                                       (np_get 0%Z label i)),
                snd a + np_get (lit 0) lscores i))
            idx acc,
          st).
Proof.
  induction idx as [|i idx IH]; intros acc Hidx; [reflexivity|].
  inversion Hidx as [|? ? (s & l & Es & El & Hl) Hrest]; subst.
  simpl for_m. rewrite (run_bind _ _ st (run_weigh axis _ _ _ acc st Es El Hl)).
  rewrite IH by assumption. simpl fold_left.
  assert (Gs : np_get (lit 0) lscores i = s)
    by (unfold np_get; now rewrite Es).
  assert (Gl : np_get 0%Z label i = l) by (unfold np_get; now rewrite El).
  now rewrite Gs, Gl.
Qed.

Ltac step E := rewrite (run_bind _ _ _ E); cbv beta.

(** C1.  Under the 8-neighbour precondition [place_inner_vertex] returns
    [(xbar, ybar)] where [xbar] is the sum of [score * x] over the
    neighbourhood entries at list positions 0, 1, 2, 5, 6, 7 divided by
    the sum of their scores, and [ybar] is the sum of [score * y] over the
    entries at list positions 0, 3, 5, 2, 4, 7 divided by the sum of
    their scores; the weights are the scores themselves. *)
Theorem place_inner_vertex_barycentre (ls : F) (st : vars F)
    (i0 i1 i2 : nat) :
  eight_neighbours st i0 i1 i2 ->
  place_inner_vertex ls st
  = OK ((weighted_average fst
           (pick (lit 0, origin) (neighbourhood st i0 i1 i2)
                 [0; 1; 2; 5; 6; 7]%nat),
         weighted_average snd
           (pick (lit 0, origin) (neighbourhood st i0 i1 i2)
                 [0; 3; 5; 2; 4; 7]%nat)),
        st).
Proof.
  intros (m & cm & nx & Hm & Hcm & Hnx & Hcol & Hlen & Hv).
  unfold place_inner_vertex.
  assert (E1 : argmin_scores st = OK (m, st))
    by (unfold argmin_scores; now apply run_lift).
  assert (E2 : grid_at m st = OK (cm, st))
    by (unfold grid_at; now apply run_lift).
  assert (E3 : grid_at (m + 1) st = OK (nx, st))
    by (unfold grid_at; now apply run_lift).
  assert (E4 : len_grid st = OK (length (var_grid st), st)) by reflexivity.
  step E1. step E2. step E3. step E4.
  assert (E5 := run_scan st cm (fabs (fst cm - fst nx))
                  (range (length (var_grid st))) []
                  (fun i Hi => proj2 (proj1 (in_seq _ _ _) Hi))).
  simpl app in E5. fold (column (var_grid st) cm (fabs (fst cm - fst nx))) in E5.
  rewrite Hcol in E5. step E5.
  assert (E6 : lift (py_del (slots [i0; i1; i2]) 4) st
               = OK (eight_labels i0 i1 i2, st)) by reflexivity.
  step E6.
  assert (Hv8 : Forall (valid_index (length (var_grid st)))
                       (eight_labels i0 i1 i2)).
  { apply Forall_forall. intros l Hl.
    apply (proj1 (Forall_forall _ _) Hv). simpl in Hl |- *. tauto. }
  assert (Hs8 : Forall (valid_index (length (var_scores st)))
                       (eight_labels i0 i1 i2)) by now rewrite Hlen.
  assert (E7 := run_scores st [] Hs8). simpl app in E7. step E7.
  assert (Hpos : forall idx : list Z,
             Forall (fun i => (0 <= i < 8)%Z) idx ->
             Forall (fun i => exists s l,
                       py_index (map (np_get (lit 0) (var_scores st))
                                     (eight_labels i0 i1 i2)) i = OK s
                       /\ py_index (eight_labels i0 i1 i2) i = OK l
                       /\ valid_index (length (var_grid st)) l) idx).
  { intros idx Hidx. eapply Forall_impl; [|exact Hidx].
    intros i Hi. cbv beta in Hi.
    exists (np_get (lit 0) (map (np_get (lit 0) (var_scores st))
                                (eight_labels i0 i1 i2)) i),
           (np_get 0%Z (eight_labels i0 i1 i2) i).
    split; [apply py_index_valid; unfold valid_index; simpl; lia|].
    split; [apply py_index_valid; unfold valid_index; simpl; lia|].
    assert (Hi' : (i = 0 \/ i = 1 \/ i = 2 \/ i = 3 \/ i = 4 \/ i = 5
                   \/ i = 6 \/ i = 7)%Z) by lia.
    apply (proj1 (Forall_forall _ _) Hv8).
    repeat (destruct Hi' as [->|Hi']; [simpl; tauto|]).
    subst i. simpl. tauto. }
  assert (E8 := run_weigh_loop fst (eight_labels i0 i1 i2)
                  (map (np_get (lit 0) (var_scores st))
                       (eight_labels i0 i1 i2)) st (lit 0, lit 0)
                  (Hpos xs ltac:(repeat constructor; lia))).
  step E8.
  assert (E9 := run_weigh_loop snd (eight_labels i0 i1 i2)
                  (map (np_get (lit 0) (var_scores st))
                       (eight_labels i0 i1 i2)) st (lit 0, lit 0)
                  (Hpos ys ltac:(repeat constructor; lia))).
  step E9.
  reflexivity.
Qed.

(** *** Too few slots *)

Lemma for_m_raises {I S} (body : I -> S -> M F S) (idx : list I) :
  (forall i s, index_errors_only (body i s)) ->
  forall s, index_errors_only (for_m idx body s).
Proof.
  intros Hbody. induction idx as [|i idx IH]; intros s st e E.
  - discriminate.
  - simpl in E. unfold bind in E.
    destruct (body i s st) as [[s1 st1]|e1] eqn:Eb.
    + now apply IH in E.
    + inversion E; subst. now apply Hbody in Eb.
Qed.

Lemma scores_step_raises (i : Z) (acc : list F) :
  index_errors_only (bind (scores_at (F:=F) i) (fun s => ret (acc ++ [s]))).
Proof.
  intros st e E. unfold bind, scores_at, lift in E.
  destruct (py_index (var_scores st) i) eqn:Ei; [discriminate|].
  inversion E; subst. now apply py_index_raises in Ei.
Qed.

Lemma scores_loop_length (label : list Z) :
  forall (acc l : list F) (st st1 : vars F),
    for_m label (fun i acc => bind (scores_at i) (fun s => ret (acc ++ [s])))
          acc st = OK (l, st1) ->
    length l = (length acc + length label)%nat.
Proof.
  induction label as [|i label IH]; intros acc l st st1 E; simpl in E.
  - inversion E; subst. simpl. lia.
  - unfold bind at 1 in E.
    destruct (bind (scores_at i) (fun s => ret (acc ++ [s])) st)
      as [[acc1 st2]|e] eqn:Eb; [|discriminate].
    unfold bind, scores_at, lift, ret in Eb.
    destruct (py_index (var_scores st) i); [|discriminate].
    inversion Eb; subst.
    apply IH in E. rewrite E, length_app. simpl. lia.
Qed.

Lemma weigh_raises (axis : point F -> F) (label : list Z)
    (lscores : list F) (i : Z) (acc : F * F) :
  index_errors_only (weigh axis label lscores i acc).
Proof.
  intros st e E. unfold weigh in E. destruct acc as [sum sum_score].
  unfold bind, lift, grid_at, ret in E.
  destruct (py_index lscores i) eqn:E1;
    [|inversion E; subst; now apply py_index_raises in E1].
  destruct (py_index label i) eqn:E2;
    [|inversion E; subst; now apply py_index_raises in E2].
  destruct (py_index (var_grid st) a0) eqn:E3;
    [|inversion E; subst; now apply py_index_raises in E3].
  discriminate.
Qed.

Lemma weigh_needs_score (axis : point F -> F) (label : list Z)
    (lscores : list F) (i : Z) (acc : F * F) (st : vars F) (e : exn) :
  py_index lscores i = Raise e ->
  weigh axis label lscores i acc st = Raise e.
Proof.
  intros E. unfold weigh. destruct acc as [sum sum_score].
  unfold bind, lift. now rewrite E.
Qed.

(** A loop that asks for a position the score list does not have
    raises. *)
Lemma weigh_loop_short (axis : point F -> F) (label : list Z)
    (lscores : list F) (idx : list Z) :
  (exists i, In i idx /\ (Z.of_nat (length lscores) <= i)%Z) ->
  forall (acc : F * F) (st : vars F),
    for_m idx (weigh axis label lscores) acc st = Raise IndexError.
Proof.
  induction idx as [|i idx IH]; intros (k & Hk & Hpast) acc st.
  - destruct Hk.
  - simpl. unfold bind.
    destruct (weigh axis label lscores i acc st) as [[acc1 st1]|e] eqn:E.
    + apply IH. exists k. split; [|exact Hpast].
      destruct Hk as [->|Hk]; [|exact Hk].
      rewrite (weigh_needs_score _ _ _ _ _ _ (py_index_past_end _ Hpast))
        in E.
      discriminate.
    + f_equal. now apply weigh_raises in E.
Qed.

(** C7.  When the scan around the minimum finds fewer than three column
    indices, so that fewer than nine slots are collected and fewer than
    eight neighbours would remain, [place_inner_vertex] raises
    [IndexError]: it returns no point. *)
Theorem place_inner_vertex_few_slots (ls : F) (st : vars F) (m : Z)
    (coord_min next : point F) :
  np_argmin (var_scores st) = OK m ->
  py_index (var_grid st) m = OK coord_min ->
  py_index (var_grid st) (m + 1) = OK next ->
  (length (column (var_grid st) coord_min
                  (fabs (fst coord_min - fst next)%py)) < 3)%nat ->
  place_inner_vertex ls st = Raise IndexError.
Proof.
  intros Hm Hcm Hnx Hcol.
  unfold place_inner_vertex.
  assert (E1 : argmin_scores st = OK (m, st))
    by (unfold argmin_scores; now apply run_lift).
  assert (E2 : grid_at m st = OK (coord_min, st))
    by (unfold grid_at; now apply run_lift).
  assert (E3 : grid_at (m + 1) st = OK (next, st))
    by (unfold grid_at; now apply run_lift).
  assert (E4 : len_grid st = OK (length (var_grid st), st)) by reflexivity.
  step E1. step E2. step E3. step E4.
  assert (E5 := run_scan st coord_min (fabs (fst coord_min - fst next))
                  (range (length (var_grid st))) []
                  (fun i Hi => proj2 (proj1 (in_seq _ _ _) Hi))).
  simpl app in E5.
  fold (column (var_grid st) coord_min (fabs (fst coord_min - fst next)))
    in E5.
  step E5.
  destruct (column (var_grid st) coord_min (fabs (fst coord_min - fst next)))
    as [|a [|b [|c col]]]; [| | |simpl in Hcol; lia].
  - now apply run_bind_raise.
  - now apply run_bind_raise.
  - rewrite (run_bind _ _ st
               (a := [ (Z.of_nat a - 1)%Z; Z.of_nat a; (Z.of_nat a + 1)%Z;
                       (Z.of_nat b - 1)%Z; (Z.of_nat b + 1)%Z ])
               (st1 := st)) by reflexivity.
    cbv beta. unfold bind at 1. clear E5.
    destruct (for_m _ _ [] st) as [[lscores st1]|e] eqn:E7.
    + apply scores_loop_length in E7. simpl in E7.
      apply run_bind_raise. apply weigh_loop_short.
      exists 5%Z. split; [unfold xs; simpl; tauto|]. lia.
    + f_equal. revert E7. apply for_m_raises.
      intros. apply scores_step_raises.
Qed.

End RecovererFacts.

(** *** On the 3 by 3 lattice *)

Lemma grid3_centre_neighbours :
  eight_neighbours (F:=Q) (Vars grid3 scores_centre []) 1 4 7.
Proof.
  exists 4%Z, (1, 1)%Q, (2, 1)%Q.
  repeat split; try reflexivity.
  repeat constructor; unfold valid_index; simpl; lia.
Qed.

Lemma place_inner_vertex_barycentre_witness :
  eight_neighbours (F:=Q) (Vars grid3 scores_centre []) 1 4 7
  /\ place_inner_vertex (F:=Q) 1 (Vars grid3 scores_centre [])
     = OK ((15 # 24, 6 # 15)%Q, Vars grid3 scores_centre []).
Proof.
  split; [exact grid3_centre_neighbours|].
  exact (@place_inner_vertex_barycentre Q Q_float 1%Q
           (Vars grid3 scores_centre []) 1 4 7 grid3_centre_neighbours).
Defined.

Lemma place_inner_vertex_read_only_witness :
  match place_inner_vertex (F:=Q) 1 (Vars grid3 scores_centre []) with
  | OK (_, st') =>
      var_grid st' = grid3 /\ var_scores st' = scores_centre
  | Raise _ => False
  end.
Proof.
  destruct (place_inner_vertex (F:=Q) 1 (Vars grid3 scores_centre []))
    as [[p st']|e] eqn:E.
  - exact (proj2 (@place_inner_vertex_read_only Q Q_float 1%Q _ _ _ E)).
  - vm_compute in E. discriminate.
Defined.

Lemma place_inner_vertex_few_slots_witness :
  np_argmin (F:=Q) scores_corner = OK 0%Z
  /\ column (F:=Q) grid3 (0, 0)%Q (Qabs (0 - 1)) = [0; 3]%nat
  /\ place_inner_vertex (F:=Q) 1 (Vars grid3 scores_corner [])
     = Raise IndexError.
Proof.
  split; [reflexivity|]. split; [reflexivity|].
  apply (@place_inner_vertex_few_slots Q Q_float 1%Q
           (Vars grid3 scores_corner []) 0%Z (0, 0)%Q (1, 0)%Q);
    try reflexivity.
  simpl. lia.
Defined.

(** C7, as stated, fails on the left column of the lattice: the least score
    is at index 3, the point (0,1), and no grid point lies to its left.  The
    scan finds the column indices 0, 3 and 6, the slots wrap to index -1 and
    run into the neighbouring rows, and a point is returned without an
    error, in exact arithmetic and in binary64. *)
Lemma place_inner_vertex_left_column_no_error :
  np_argmin (F:=Q) scores_left = OK 3%Z
  /\ row (F:=Q) grid3 3 = (0, 1)%Q
  /\ forallb (fun p => Qle_bool 0 (fst p)) grid3 = true
  /\ slots (column (F:=Q) grid3 (0, 1)%Q (Qabs (0 - 1)))
     = [-1; 0; 1; 2; 3; 4; 5; 6; 7]%Z
  /\ place_inner_vertex (F:=Q) 1 (Vars grid3 scores_left [])
     = OK ((15 # 24, 6 # 15)%Q, Vars grid3 scores_left [])
  /\ ~ is_error (place_inner_vertex (F:=Q) 1 (Vars grid3 scores_left []))
       = true
  /\ is_error (place_inner_vertex (F:=float) 1%float
                                  (Vars grid3 scores_left [])) = false.
Proof. vm_compute. repeat split; try reflexivity. discriminate. Qed.

(** ** The recovery loop *)

Section LoopFacts.
Context {F : Type} `{PyFloat F}.
Local Open Scope py_scope.

Lemma run_bind_assoc_step {I S} (body : I -> S -> M F S) (i : I) (s : S)
    (st : vars F) (k1 : S -> M F S) (k2 : S -> M F S) :
  bind (bind (body i s) k1) k2 st
  = match body i s st with
    | OK (s1, st1) => bind (k1 s1) k2 st1
    | Raise e => Raise e
    end.
Proof.
  unfold bind. destruct (body i s st) as [[s1 st1]|e]; reflexivity.
Qed.

Lemma for_m_app {I S} (body : I -> S -> M F S) (l1 l2 : list I) :
  forall (s : S) (st : vars F),
    for_m (l1 ++ l2) body s st
    = bind (for_m l1 body s) (for_m l2 body) st.
Proof.
  induction l1 as [|i l1 IH]; intros s st; simpl.
  - reflexivity.
  - unfold bind at 1. rewrite (run_bind_assoc_step body i s st).
    destruct (body i s st) as [[s1 st1]|e]; [apply IH|reflexivity].
Qed.

(** One more iteration is one more run of the body. *)
Lemma iterations_succ (ls : F) (k : nat) (st : vars F) :
  iterations ls (S k) st
  = match iterations ls k st with
    | OK (_, st1) => recover_step ls k tt st1
    | Raise e => Raise e
    end.
Proof.
  unfold iterations, range. rewrite seq_S, for_m_app. unfold bind at 1.
  destruct (for_m (seq 0 k) (recover_step ls) tt st) as [[[] st1]|e];
    [|reflexivity].
  simpl. unfold bind.
  destruct (recover_step ls k tt st1) as [[[] st2]|e]; reflexivity.
Qed.

(** A failure of some iteration is the failure of every longer run. *)
Lemma iterations_raise (ls : F) (st0 : vars F) (k n : nat) (e : exn) :
  (k <= n)%nat ->
  iterations ls k st0 = Raise e -> iterations ls n st0 = Raise e.
Proof.
  intros Hkn Ek. induction Hkn as [|n Hkn IH]; [exact Ek|].
  now rewrite iterations_succ, IH.
Qed.


(** With no score left the next iteration raises. *)
Lemma recover_step_exhausted (ls : F) (i : nat) (st : vars F) :
  var_scores st = [] -> recover_step ls i tt st = Raise ValueError.
Proof.
  intros Hs. unfold recover_step. apply run_bind_raise.
  unfold place_inner_vertex. apply run_bind_raise.
  unfold argmin_scores. now rewrite Hs.
Qed.



End LoopFacts.



(* ================================================================= *)
(** * Further properties *)

(** ** The point-in-polygon test: boundary and outside *)

Section ContourMore.
Context {F : Type} `{PyFloat F}.
Local Open Scope py_scope.

(** Once the loop meets a straddling edge on which the slope test
    vanishes it returns true, unless it has returned true before. *)
Lemma for_in_boundary (x y : F) (coord : list (point F)) (idx : list nat) :
  forall (j : nat) (c : bool),
    (exists e, In e (edges_from coord j idx)
               /\ on_straddling_edge x y e = true) ->
    for_in idx (contour_step x y coord) (j, c) = Return true.
Proof.
  induction idx as [|i rest IH]; intros j c (e & He & Hon).
  - destruct He.
  - simpl. destruct (is_corner x y (row coord i)); [reflexivity|].
    destruct He as [<-|He].
    + unfold on_straddling_edge in Hon. simpl in Hon.
      apply andb_true_iff in Hon. destruct Hon as [Hs Hz].
      now rewrite Hs, Hz.
    + assert (Hrest : exists e0, In e0 (edges_from coord i rest)
                                 /\ on_straddling_edge x y e0 = true)
        by now exists e.
      destruct (straddles y (row coord i) (row coord j)).
      * destruct (slope x y (row coord i) (row coord j) == lit 0);
          [reflexivity|].
        destruct (crosses x y (row coord i) (row coord j)); now apply IH.
      * now apply IH.
Qed.

Lemma edges_endpoints (coord : list (point F)) (e : point F * point F) :
  In e (edges coord) -> In (fst e) coord /\ In (snd e) coord.
Proof.
  unfold edges, range. intros He. apply in_map_iff in He.
  destruct He as (i & <- & Hi). apply in_seq in Hi. simpl. split.
  - apply nth_In. lia.
  - apply nth_In. destruct i; simpl; lia.
Qed.

(** X2.  If the slope test vanishes on some edge whose endpoints straddle
    the query's y-coordinate, [is_in_contour] answers true. *)
Theorem is_in_contour_zero_slope (x y : F) (coord : list (point F))
    (e : point F * point F) :
  In e (edges coord) -> on_straddling_edge x y e = true ->
  is_in_contour x y coord = true.
Proof.
  intros He Hon. unfold is_in_contour. rewrite edges_unfold in He.
  rewrite (for_in_boundary x y coord); [reflexivity|].
  now exists e.
Qed.

(** X3.  A query point that is no vertex and has all vertices on one side
    of its y-coordinate (none strictly above it, or all strictly above it)
    is reported outside: no edge passes the straddle test.  With no vertex
    strictly above, this covers every point at the height of the topmost
    vertices, on a top horizontal edge or beside it. *)
Theorem is_in_contour_no_straddle (x y : F) (coord : list (point F))
    (above : bool) :
  (forall v, In v coord -> is_corner x y v = false) ->
  (forall v, In v coord -> (snd v >? y) = above) ->
  is_in_contour x y coord = false.
Proof.
  intros Hcorner Hside.
  assert (Hflat : forall e, In e (edges coord) ->
                            straddles y (fst e) (snd e) = false).
  { intros e He. apply edges_endpoints in He. destruct He as [H1 H2].
    unfold straddles. rewrite (Hside _ H1), (Hside _ H2).
    now destruct above. }
  unfold is_in_contour.
  destruct (for_in_parity x y coord (range (length coord))
              (length coord - 1) false) as [j' E].
  - intros i Hi. apply Hcorner. now apply row_in.
  - rewrite <- edges_unfold. intros e He. unfold on_straddling_edge.
    now rewrite (Hflat e He).
  - rewrite E, <- edges_unfold. simpl xorb.
    replace (filter (counted x y) (edges coord))
      with (@nil (point F * point F)); [reflexivity|].
    symmetry. induction (edges coord) as [|e l IH]; [reflexivity|]. simpl.
    unfold counted at 1. rewrite (Hflat e (or_introl eq_refl)). simpl.
    apply IH. intros e0 He0. apply Hflat. now right.
Qed.

End ContourMore.

Lemma is_in_contour_vertex_witness :
  is_in_contour (F:=Q) 1 (-1) square = true.
Proof.
  apply (@is_in_contour_vertex Q Q_float 1%Q (-1)%Q square (1, -1)%Q).
  - simpl. tauto.
  - reflexivity.
Defined.

Lemma is_in_contour_zero_slope_witness :
  is_in_contour (F:=Q) 1 (1 # 2) square = true.
Proof.
  apply (@is_in_contour_zero_slope Q Q_float 1%Q (1 # 2)%Q square
           ((1, 1)%Q, (1, -1)%Q)).
  - simpl. tauto.
  - reflexivity.
Defined.

Lemma is_in_contour_no_straddle_witness :
  is_in_contour (F:=Q) (1 # 3) 1 square = false.
Proof.
  apply (@is_in_contour_no_straddle Q Q_float (1 # 3)%Q 1%Q square false).
  - intros v Hv. simpl in Hv.
    repeat (destruct Hv as [<-|Hv]; [reflexivity|]). destruct Hv.
  - intros v Hv. simpl in Hv.
    repeat (destruct Hv as [<-|Hv]; [reflexivity|]). destruct Hv.
Defined.

(** ** The grid builder: what every grid satisfies *)

Section GridMore.
Context {F : Type} `{PyFloat F}.
Local Open Scope py_scope.

(** X5.  Whatever the arithmetic, a grid that [create_grid] returns holds
    only points that the point-in-polygon test accepts, and at most
    [n * n] of them, [n] being the number of divisions [int(2/Gscale)]. *)
Theorem create_grid_sound (coord : list (point F)) (ls : F)
    (g : list (point F)) :
  create_grid coord ls = OK g ->
  (forall p, In p g -> is_in_contour (fst p) (snd p) coord = true)
  /\ exists n : Z,
       f_int (of_int 2 / (lit (1 # 100) * ls)) = OK n
       /\ (length g <= Z.to_nat n * Z.to_nat n)%nat.
Proof.
  intros E.
  destruct (lit (1 # 100) * ls == lit 0) eqn:Hz;
    [unfold create_grid in E; rewrite Hz in E; discriminate|].
  destruct (f_int (of_int 2 / (lit (1 # 100) * ls))) as [n|e] eqn:Hn;
    [|unfold create_grid in E; rewrite Hz, Hn in E; discriminate].
  rewrite (create_grid_lattice coord ls Hz Hn) in E. inversion E; subst g.
  split.
  - intros p Hp. apply filter_In in Hp. exact (proj2 Hp).
  - exists n. split; [reflexivity|].
    rewrite <- (lattice_length (Z.to_nat n) (lit (1 # 100) * ls)
                  (corner (lit (1 # 100) * ls) n)).
    apply filter_length_le.
Qed.

(** X6.  The calls of [create_grid] that return no grid point: a spacing
    [0.01 * ls] that compares equal to zero raises [ZeroDivisionError] at
    [2/Gscale]; an [int()] that raises makes the call raise the same
    exception; and a number of divisions that is not positive, as a
    negative [ls] gives, skips both loops, so that the empty grid is
    returned without the point-in-polygon test being called. *)
Theorem create_grid_nonpositive (coord : list (point F)) (ls : F) :
  ((lit (1 # 100) * ls == lit 0) = true ->
   create_grid coord ls = Raise ZeroDivisionError)
  /\ (forall e,
        (lit (1 # 100) * ls == lit 0) = false ->
        f_int (of_int 2 / (lit (1 # 100) * ls)) = Raise e ->
        create_grid coord ls = Raise e)
  /\ (forall n,
        (lit (1 # 100) * ls == lit 0) = false ->
        f_int (of_int 2 / (lit (1 # 100) * ls)) = OK n ->
        (n <= 0)%Z ->
        create_grid coord ls = OK []).
Proof.
  split; [|split].
  - intros Hz. unfold create_grid. now rewrite Hz.
  - intros e Hz He. unfold create_grid. now rewrite Hz, He.
  - intros n Hz Hn Hle. rewrite (create_grid_lattice coord ls Hz Hn).
    replace (Z.to_nat n) with 0%nat by lia. reflexivity.
Qed.

End GridMore.

Lemma create_grid_sound_witness :
  forallb (inside (F:=Q) square)
          (filter (inside square)
                  (lattice 4 ((1 # 100) * 50)%Q
                           (corner ((1 # 100) * 50)%Q 4))) = true.
Proof.
  apply forallb_forall. intros p Hp.
  apply (proj1 (@create_grid_sound Q Q_float square 50%Q _
                  (@create_grid_lattice Q Q_float square 50%Q 4%Z
                     eq_refl eq_refl))).
  exact Hp.
Defined.

Lemma create_grid_negative_witness :
  create_grid square (-1)%float = OK []
  /\ create_grid square 0%float = Raise ZeroDivisionError.
Proof.
  split.
  - apply (proj2 (proj2 (@create_grid_nonpositive float b64_float square
                           (-1)%float)) (-200)%Z).
    + vm_compute. reflexivity.
    + vm_compute. reflexivity.
    + lia.
  - apply (proj1 (@create_grid_nonpositive float b64_float square 0%float)).
    vm_compute. reflexivity.
Defined.

(** ** The scorer: the flat target array *)

Section ScorerMore.
Context {F : Type} `{PyFloat F} `{PySqrt F}.
Local Open Scope py_scope.

Lemma targets_drop_odd (nodes : list F) (z : F) :
  Nat.even (length nodes) = true -> targets (nodes ++ [z]) = targets nodes.
Proof.
  induction nodes as [|a|a b l IH] using pair_induction; intros Hev.
  - reflexivity.
  - discriminate.
  - simpl. f_equal. apply IH. exact Hev.
Qed.

Lemma for_r_ext {I S} (body body' : I -> S -> result S) (idx : list I) :
  (forall i s, body i s = body' i s) ->
  forall s, for_r idx body s = for_r idx body' s.
Proof.
  intros Hb. induction idx as [|i idx IH]; intros s; simpl; [reflexivity|].
  rewrite Hb. destruct (body' i s); [apply IH|reflexivity].
Qed.

(** X8.  A coordinate left over at the end of the flat target array is
    ignored: with an even number of coordinates before it, one more
    coordinate changes neither the score of a node nor the score array. *)
Theorem scores_ignore_unpaired_coordinate (g : list (point F))
    (nodes : list F) (z : F) :
  Nat.even (length nodes) = true ->
  (forall node, score_of_node node (nodes ++ [z]) = score_of_node node nodes)
  /\ calculate_score_array g (nodes ++ [z]) = calculate_score_array g nodes.
Proof.
  intros Hev.
  assert (Hnode : forall node,
             score_of_node node (nodes ++ [z]) = score_of_node node nodes).
  { intros node. rewrite !score_of_node_min. unfold distances.
    now rewrite targets_drop_odd. }
  split; [exact Hnode|].
  unfold calculate_score_array. apply for_r_ext. intros i s.
  now rewrite Hnode.
Qed.

End ScorerMore.

Lemma scores_ignore_unpaired_coordinate_witness :
  calculate_score_array [(0, 0); (3, 4)]%float ([3; 4; 6; 8] ++ [7])%float
  = calculate_score_array [(0, 0); (3, 4)]%float [3; 4; 6; 8]%float.
Proof.
  exact (proj2 (@scores_ignore_unpaired_coordinate float b64_float b64_sqrt
                  [(0, 0); (3, 4)]%float [3; 4; 6; 8]%float 7%float
                  eq_refl)).
Defined.

(** ** The recoverer: the minimum and the exceptions *)

Section ArgminFacts.
Context {F : Type} `{PyFloat F}.
Local Open Scope py_scope.

Variable L : list F.
Hypothesis HL : totally_ordered L.

Lemma fltb_below (v best x : F) :
  In v L -> In best L -> In x L ->
  (v <? best) = true -> (x <? best) = false -> (v <? x) = true.
Proof.
  intros Hv Hb Hx Evb Exb. destruct (v <? x) eqn:E; [reflexivity|].
  rewrite (@ordered_negtrans _ _ L v x best HL Hv Hx Hb E Exb) in Evb.
  discriminate.
Qed.

(** On ordered values the scan takes a score exactly when it is below the
    best one so far. *)
Lemma argmin_from_step (best v : F) (besti i : nat) (t : list F) :
  In best L -> In v L ->
  argmin_from best besti i (v :: t)
  = if v <? best then argmin_from v i (S i) t
    else argmin_from best besti (S i) t.
Proof.
  intros Hb Hv. destruct HL as (Heq & _ & Hle & _). simpl.
  rewrite (Hle best v Hb Hv), negb_involutive.
  unfold f_is_nan. now rewrite (Heq v Hv).
Qed.

Lemma argmin_from_spec (d : F) (t : list F) :
  forall (pre : list F) (best : F) (besti : nat),
    incl (pre ++ t) L ->
    (besti < length pre)%nat ->
    nth besti pre d = best ->
    (forall i, (i < length pre)%nat -> (nth i pre d <? best) = false) ->
    (forall i, (i < besti)%nat -> (best <? nth i pre d) = true) ->
    let k := argmin_from best besti (length pre) t in
    (k < length (pre ++ t))%nat
    /\ (forall i, (i < length (pre ++ t))%nat ->
                  (nth i (pre ++ t) d <? nth k (pre ++ t) d) = false)
    /\ (forall i, (i < k)%nat ->
                  (nth k (pre ++ t) d <? nth i (pre ++ t) d) = true).
Proof.
  induction t as [|v t IH];
    intros pre best besti Hincl Hb Hbest Hleast Hfirst.
  - simpl. rewrite app_nil_r, Hbest. auto.
  - assert (Hpre : forall i, (i < length pre)%nat -> In (nth i pre d) L).
    { intros i Hi. apply Hincl, in_or_app. left. now apply nth_In. }
    assert (Hv : In v L).
    { apply Hincl, in_or_app. right. now left. }
    assert (Hbest_in : In best L) by (rewrite <- Hbest; now apply Hpre).
    rewrite (@argmin_from_step best v besti (length pre) t Hbest_in Hv).
    replace (S (length pre)) with (length (pre ++ [v]))
      by (rewrite length_app; simpl; lia).
    replace (pre ++ v :: t) with ((pre ++ [v]) ++ t) in *
      by (rewrite <- app_assoc; reflexivity).
    assert (Hlast : nth (length pre) (pre ++ [v]) d = v)
      by (rewrite app_nth2, Nat.sub_diag by lia; reflexivity).
    destruct HL as (_ & Hirr & _ & Hlt & _).
    destruct (v <? best) eqn:Ev.
    + apply IH.
      * exact Hincl.
      * rewrite length_app. simpl. lia.
      * exact Hlast.
      * intros i Hi. rewrite length_app in Hi. simpl in Hi.
        destruct (Nat.eq_dec i (length pre)) as [->|Hne].
        -- rewrite Hlast. now apply Hirr.
        -- rewrite app_nth1 by lia.
           destruct (nth i pre d <? v) eqn:E; [|reflexivity].
           assert (Hl : (nth i pre d <? best) = false) by (apply Hleast; lia).
           rewrite (Hlt _ _ _ (Hpre i ltac:(lia)) Hv Hbest_in E Ev) in Hl.
           discriminate.
      * intros i Hi. rewrite app_nth1 by lia.
        apply fltb_below with (best := best);
          [exact Hv|exact Hbest_in|apply Hpre; lia|exact Ev|].
        apply Hleast. lia.
    + apply IH.
      * exact Hincl.
      * rewrite length_app. simpl. lia.
      * rewrite app_nth1 by lia. exact Hbest.
      * intros i Hi. rewrite length_app in Hi. simpl in Hi.
        destruct (Nat.eq_dec i (length pre)) as [->|Hne].
        -- now rewrite Hlast.
        -- rewrite app_nth1 by lia. apply Hleast. lia.
      * intros i Hi. rewrite app_nth1 by lia. now apply Hfirst.
Qed.

End ArgminFacts.

Section ArgminFirst.
Context {F : Type} `{PyFloat F}.
Local Open Scope py_scope.

(** X9.  On a non-empty array of scores that the comparisons order (no
    score is a NaN), [np.argmin] as used by [place_inner_vertex] returns
    an index [k] in range at which no score is smaller, and every score
    before [k] is strictly larger: ties go to the first occurrence. *)
Theorem np_argmin_first_least (d : F) (l : list F) :
  l <> [] ->
  totally_ordered l ->
  exists k : nat,
    np_argmin l = OK (Z.of_nat k)
    /\ (k < length l)%nat
    /\ (forall i, (i < length l)%nat -> (nth i l d <? nth k l d) = false)
    /\ (forall i, (i < k)%nat -> (nth k l d <? nth i l d) = true).
Proof.
  destruct l as [|v t]; [congruence|]. intros _ Hl.
  exists (argmin_from v 0 1 t).
  assert (Hv : f_is_nan v = false).
  { unfold f_is_nan. destruct Hl as (Heq & _).
    now rewrite (Heq v (or_introl eq_refl)). }
  split; [simpl; now rewrite Hv|].
  apply (@argmin_from_spec _ _ (v :: t) Hl d t [v] v 0%nat).
  - apply incl_refl.
  - simpl. lia.
  - reflexivity.
  - intros [|i] Hi; simpl in Hi; [|lia]. simpl.
    destruct Hl as (_ & Hirr & _). apply Hirr. now left.
  - intros i Hi. lia.
Qed.

End ArgminFirst.

Lemma np_argmin_first_least_witness :
  exists k : nat,
    np_argmin [3; 1; 2; 1]%float = OK (Z.of_nat k)
    /\ (k < 4)%nat
    /\ (forall i, (i < 4)%nat ->
          PrimFloat.ltb (nth i [3; 1; 2; 1]%float 0%float)
                        (nth k [3; 1; 2; 1]%float 0%float) = false)
    /\ (forall i, (i < k)%nat ->
          PrimFloat.ltb (nth k [3; 1; 2; 1]%float 0%float)
                        (nth i [3; 1; 2; 1]%float 0%float) = true).
Proof.
  apply (@np_argmin_first_least float b64_float 0%float
           [3; 1; 2; 1]%float).
  - discriminate.
  - apply b64_totally_ordered. reflexivity.
Defined.

Section RecovererErrors.
Context {F : Type} `{PyFloat F}.
Local Open Scope py_scope.

Lemma index_errors_bind {A B} (c : M F A) (k : A -> M F B) :
  index_errors_only c -> (forall a, index_errors_only (k a)) ->
  index_errors_only (bind c k).
Proof.
  intros Hc Hk st e E. unfold bind in E.
  destruct (c st) as [[a st1]|e1] eqn:Ec.
  - now apply Hk in E.
  - inversion E; subst. now apply Hc in Ec.
Qed.

Lemma index_errors_ret {A} (a : A) : index_errors_only (ret (F:=F) a).
Proof. intros st e E. discriminate. Qed.

Lemma index_errors_grid_at (i : Z) : index_errors_only (grid_at (F:=F) i).
Proof.
  intros st e E. unfold grid_at, lift in E.
  destruct (py_index (var_grid st) i) eqn:Ei; [discriminate|].
  inversion E; subst. now apply py_index_raises in Ei.
Qed.

Lemma index_errors_scan_step (cm : point F) (G : F) (i : nat) (l : list Z) :
  index_errors_only (scan_step cm G i l).
Proof.
  unfold scan_step.
  apply index_errors_bind; [apply index_errors_grid_at|]. intros gi.
  destruct (feqb _ _); [|apply index_errors_ret].
  apply index_errors_bind; [apply index_errors_grid_at|]. intros gi'.
  destruct (fleb _ _); apply index_errors_ret.
Qed.

(** After the minimum is found, every exception is an [IndexError]. *)
Lemma index_errors_after_argmin (m : Z) :
  index_errors_only
    (bind (grid_at (F:=F) m) (fun coord_min =>
     bind (grid_at (m + 1)) (fun next =>
     let Gscale := fabs (fst coord_min - fst next) in
     bind len_grid (fun n =>
     bind (for_m (range n) (scan_step coord_min Gscale) []) (fun label =>
     bind (lift (py_del label 4)) (fun label =>
     bind (for_m label
                 (fun i acc => bind (scores_at i)
                                    (fun s => ret (acc ++ [s]))) [])
          (fun lscores =>
     bind (for_m xs (weigh fst label lscores) (lit 0, lit 0)) (fun xacc =>
     bind (for_m ys (weigh snd label lscores) (lit 0, lit 0)) (fun yacc =>
     ret (fst xacc / snd xacc, fst yacc / snd yacc)))))))))).
Proof.
  apply index_errors_bind; [apply index_errors_grid_at|intros cm].
  apply index_errors_bind; [apply index_errors_grid_at|intros nx].
  apply index_errors_bind; [intros st e E; discriminate|intros n].
  apply index_errors_bind;
    [apply for_m_raises; intros; apply index_errors_scan_step|intros l].
  apply index_errors_bind.
  { intros st e E. unfold lift in E.
    destruct (py_del l 4) eqn:Ed; [discriminate|].
    inversion E; subst. now apply py_del_raises in Ed. }
  intros l'.
  apply index_errors_bind;
    [apply for_m_raises; intros; apply scores_step_raises|intros ls'].
  apply index_errors_bind;
    [apply for_m_raises; intros; apply weigh_raises|intros xa].
  apply index_errors_bind;
    [apply for_m_raises; intros; apply weigh_raises|intros ya].
  apply index_errors_ret.
Qed.

(** X10.  [place_inner_vertex] raises only two exceptions: [ValueError],
    exactly when the scores array is empty (from [np.argmin]), and
    [IndexError] for every other failure.  Division by a zero sum of scores
    raises nothing. *)
Theorem place_inner_vertex_exceptions (ls : F) (st : vars F) :
  (var_scores st = [] -> place_inner_vertex ls st = Raise ValueError)
  /\ (forall e, place_inner_vertex ls st = Raise e ->
                (e = ValueError /\ var_scores st = [])
                \/ (e = IndexError /\ var_scores st <> [])).
Proof.
  split.
  - intros Hs. unfold place_inner_vertex. apply run_bind_raise.
    unfold argmin_scores. now rewrite Hs.
  - intros e E. unfold place_inner_vertex in E.
    destruct (var_scores st) as [|v t] eqn:Hs.
    + left. split; [|reflexivity].
      rewrite (run_bind_raise _ _ st (e := ValueError)) in E
        by (unfold argmin_scores; now rewrite Hs).
      now inversion E.
    + right. split; [|discriminate].
      rewrite (run_bind _ _ st
                 (a := Z.of_nat (if f_is_nan v then 0%nat
                                 else argmin_from v 0 1 t))
                 (st1 := st)) in E
        by (unfold argmin_scores; now rewrite Hs).
      exact (index_errors_after_argmin _ st E).
Qed.

End RecovererErrors.

(** ** Pruning: composition and mismatched arrays *)

Section ListMore.
Context {A B : Type}.

Lemma filter_twice (f h : A -> bool) (l : list A) :
  filter f (filter h l) = filter (fun a => h a && f a) l.
Proof.
  induction l as [|a l IH]; simpl; [reflexivity|].
  destruct (h a); simpl; [destruct (f a)|]; now rewrite IH.
Qed.

Lemma combine_inj (l1 l1' : list A) :
  forall (l2 l2' : list B),
    length l1 = length l2 -> length l1' = length l2' ->
    combine l1 l2 = combine l1' l2' -> l1 = l1' /\ l2 = l2'.
Proof.
  revert l1'. induction l1 as [|a l1 IH]; intros [|a' l1'] [|b l2] [|b' l2'];
    simpl; intros H1 H2 E; try discriminate; auto.
  injection E as Ea Eb Ec. subst. injection H1 as H1. injection H2 as H2.
  destruct (IH _ _ _ H1 H2 Ec) as [-> ->]. auto.
Qed.

End ListMore.

Section PruneMore.
Context {F : Type} `{PyFloat F}.
Local Open Scope py_scope.

(** Two prunings in a row, on parallel arrays, when [radius**2] has the
    value [r2]: both return and keep the pairs that fail both radius
    tests. *)
Lemma remove_points_grid_twice (ls r2 : F) (v1 v2 : point F)
    (g : list (point F)) (s : list F) :
  fpow2 (lit (1 # 10) * ls) = OK r2 ->
  length g = length s ->
  exists g1 s1 g2 s2,
    remove_points_grid ls v1 g s = OK (g1, s1)
    /\ remove_points_grid ls v2 g1 s1 = OK (g2, s2)
    /\ length g2 = length s2
    /\ combine g2 s2
       = filter (fun ps => negb (too_close r2 v1 (fst ps))
                           && negb (too_close r2 v2 (fst ps)))
                (combine g s).
Proof.
  intros Ep Hlen.
  destruct (select_filter (fun p => negb (too_close r2 v1 p))
              (fun i => negb (too_close r2 v1 (row g i))) origin
              g s 0 Hlen) as (_ & E2 & E3); [reflexivity|].
  set (g1 := select (fun i => negb (too_close r2 v1 (row g i))) 0 g) in *.
  set (s1 := select (fun i => negb (too_close r2 v1 (row g i))) 0 s) in *.
  destruct (select_filter (fun p => negb (too_close r2 v2 p))
              (fun i => negb (too_close r2 v2 (row g1 i))) origin
              g1 s1 0 E3) as (_ & E5 & E6); [reflexivity|].
  exists g1, s1. do 2 eexists.
  split; [exact (@remove_points_grid_select _ _ ls r2 v1 g s Ep Hlen)|].
  split; [exact (@remove_points_grid_select _ _ ls r2 v2 g1 s1 Ep E3)|].
  split; [exact E6|].
  rewrite E5, E2. apply filter_twice.
Qed.

(** A call that returns although [radius**2] raises was made on the empty
    grid. *)
Lemma remove_points_grid_returned_empty (ls : F) (vert : point F)
    (g g' : list (point F)) (s s' : list F) (e : exn) :
  fpow2 (lit (1 # 10) * ls) = Raise e ->
  remove_points_grid ls vert g s = OK (g', s') ->
  g = [] /\ g' = [] /\ s' = s.
Proof.
  intros Ep E. destruct g as [|p g].
  - rewrite remove_points_grid_nil in E. inversion E. auto.
  - rewrite (@remove_points_grid_pow_raises _ _ ls vert (p :: g) s e Ep)
      in E by discriminate.
    discriminate.
Qed.

(** X11.  Pruning is idempotent: on parallel arrays, pruning the result
    once more around the same vertex with the same [ls] returns it
    unchanged. *)
Theorem remove_points_grid_idempotent (ls : F) (vert : point F)
    (g g1 : list (point F)) (s s1 : list F) :
  length g = length s ->
  remove_points_grid ls vert g s = OK (g1, s1) ->
  remove_points_grid ls vert g1 s1 = OK (g1, s1).
Proof.
  intros Hlen E1.
  destruct (fpow2 (lit (1 # 10) * ls)) as [r2|e] eqn:Ep.
  - destruct (@remove_points_grid_twice ls r2 vert vert g s Ep Hlen)
      as (g1' & s1' & g2 & s2 & F1 & F2 & L2 & C2).
    rewrite F1 in E1. inversion E1; subst g1' s1'. rewrite F2.
    destruct (select_filter (fun p => negb (too_close r2 vert p))
                (fun i => negb (too_close r2 vert (row g i))) origin
                g s 0 Hlen) as (_ & C1 & L1); [reflexivity|].
    rewrite (@remove_points_grid_select _ _ ls r2 vert g s Ep Hlen) in F1.
    inversion F1; subst g1 s1.
    destruct (combine_inj _ _ _ _ L2 L1) as [-> ->]; [|reflexivity].
    rewrite C2, C1. apply filter_ext. intros ps.
    now destruct (too_close r2 vert (fst ps)).
  - destruct (@remove_points_grid_returned_empty ls vert g g1 s s1 e Ep E1)
      as (-> & -> & ->).
    apply remove_points_grid_nil.
Qed.

(** X12.  Prunings commute: on parallel arrays, when pruning around [v1]
    and then around [v2] returns, pruning around [v2] and then around
    [v1] returns the same grid and scores. *)
Theorem remove_points_grid_commute (ls : F) (v1 v2 : point F)
    (g g1 gf : list (point F)) (s s1 sf : list F) :
  length g = length s ->
  remove_points_grid ls v1 g s = OK (g1, s1) ->
  remove_points_grid ls v2 g1 s1 = OK (gf, sf) ->
  exists g2 s2,
    remove_points_grid ls v2 g s = OK (g2, s2)
    /\ remove_points_grid ls v1 g2 s2 = OK (gf, sf).
Proof.
  intros Hlen E1 E2.
  destruct (fpow2 (lit (1 # 10) * ls)) as [r2|e] eqn:Ep.
  - destruct (@remove_points_grid_twice ls r2 v1 v2 g s Ep Hlen)
      as (g1' & s1' & gf' & sf' & F1 & F2 & L2 & C2).
    rewrite F1 in E1. inversion E1; subst g1' s1'.
    rewrite F2 in E2. inversion E2; subst gf' sf'.
    destruct (@remove_points_grid_twice ls r2 v2 v1 g s Ep Hlen)
      as (g2 & s2 & gf' & sf' & F3 & F4 & L4 & C4).
    exists g2, s2. split; [exact F3|]. rewrite F4.
    destruct (combine_inj _ _ _ _ L4 L2) as [-> ->]; [|reflexivity].
    rewrite C4, C2. apply filter_ext. intros ps. apply andb_comm.
  - destruct (@remove_points_grid_returned_empty ls v1 g g1 s s1 e Ep E1)
      as (-> & -> & ->).
    rewrite remove_points_grid_nil in E2. inversion E2; subst gf sf.
    exists [], s. split; apply remove_points_grid_nil.
Qed.

(** X13.  When [radius**2] has a value and no grid point passes the
    radius test, nothing is deleted and both arrays are returned as they
    are, whatever their lengths. *)
Theorem remove_points_grid_nothing_close (ls r2 : F) (vert : point F)
    (g : list (point F)) (s : list F) :
  fpow2 (lit (1 # 10) * ls) = OK r2 ->
  (forall p, In p g -> too_close r2 vert p = false) ->
  remove_points_grid ls vert g s = OK (g, s).
Proof.
  intros Ep Hfar. unfold remove_points_grid. cbv zeta.
  rewrite prune_loop, Ep. simpl app.
  assert (E : filter (fun i => too_close r2 vert (row g i))
                     (range (length g)) = []).
  { apply filter_all_false. intros i Hi. unfold range in Hi. apply in_seq in Hi.
    apply Hfar, nth_In. lia. }
  rewrite E. now rewrite !np_delete_nil.
Qed.

End PruneMore.

Section PruneMismatch.
Context {F : Type} `{PyFloat F}.
Local Open Scope py_scope.

(** X14.  When the scores array is shorter than the grid, [radius**2] has
    a value and some grid point at an index the scores do not have passes
    the radius test, the deletion from the scores raises [IndexError]. *)
Theorem remove_points_grid_short_scores (ls r2 : F) (vert : point F)
    (g : list (point F)) (s : list F) (i : nat) :
  fpow2 (lit (1 # 10) * ls) = OK r2 ->
  (length s <= i < length g)%nat ->
  too_close r2 vert (row g i) = true ->
  remove_points_grid ls vert g s = Raise IndexError.
Proof.
  intros Ep Hi Hclose. unfold remove_points_grid. cbv zeta.
  rewrite prune_loop, Ep. simpl app.
  rewrite (np_delete_filter g _ eq_refl).
  unfold np_delete.
  destruct (forallb (fun k => (k <? length s)%nat)
              (filter (fun k => too_close r2 vert (row g k))
                      (range (length g)))) eqn:E; [|reflexivity].
  exfalso.
  assert (Hin : In i (filter (fun k => too_close r2 vert (row g k))
                             (range (length g)))).
  { apply filter_In. split; [|exact Hclose]. unfold range. apply in_seq.
    lia. }
  apply (proj1 (forallb_forall _ _) E) in Hin. apply Nat.ltb_lt in Hin. lia.
Qed.

End PruneMismatch.

Lemma remove_points_grid_idempotent_witness :
  remove_points_grid (F:=Q) 1
    (1, 1)%Q
    [(0, 0); (1, 0); (2, 0); (0, 1); (2, 1); (0, 2); (1, 2); (2, 2)]%Q
    [10; 10; 1; 1; 1; 1; 1; 1]%Q
  = OK ([(0, 0); (1, 0); (2, 0); (0, 1); (2, 1); (0, 2); (1, 2); (2, 2)]%Q,
        [10; 10; 1; 1; 1; 1; 1; 1]%Q).
Proof.
  apply (@remove_points_grid_idempotent Q Q_float 1%Q (1, 1)%Q
           grid3 _ scores_centre _ eq_refl).
  exact remove_points_grid_example.
Defined.

Lemma remove_points_grid_commute_witness :
  exists g2 s2,
    remove_points_grid (F:=Q) 1 (0, 0)%Q grid3 scores_centre = OK (g2, s2)
    /\ remove_points_grid 1 (1, 1)%Q g2 s2
       = OK ([(1, 0); (2, 0); (0, 1); (2, 1); (0, 2); (1, 2); (2, 2)]%Q,
             [10; 1; 1; 1; 1; 1; 1]%Q).
Proof.
  apply (@remove_points_grid_commute Q Q_float 1%Q (1, 1)%Q (0, 0)%Q
           grid3 _ _ scores_centre _ _ eq_refl remove_points_grid_example).
  vm_compute. reflexivity.
Defined.

Lemma remove_points_grid_nothing_close_witness :
  remove_points_grid (F:=Q) 1 (15 # 24, 6 # 15)%Q grid3 scores_centre
  = OK (grid3, scores_centre).
Proof.
  apply (@remove_points_grid_nothing_close Q Q_float 1%Q (1 # 100)%Q
           (15 # 24, 6 # 15)%Q grid3 scores_centre).
  - reflexivity.
  - intros p Hp. simpl in Hp.
    repeat (destruct Hp as [<-|Hp]; [reflexivity|]). destruct Hp.
Defined.

Lemma remove_points_grid_short_scores_witness :
  remove_points_grid (F:=Q) 1 (2, 2)%Q grid3 [1; 1; 1]%Q = Raise IndexError.
Proof.
  apply (@remove_points_grid_short_scores Q Q_float 1%Q (1 # 100)%Q
           (2, 2)%Q grid3 [1; 1; 1]%Q 8%nat).
  - reflexivity.
  - simpl. lia.
  - reflexivity.
Defined.

(** ** The recovery loop: degenerate calls and the order of the output *)

Section ListSet.
Context {A : Type}.

Lemma nth_list_set_eq (l : list A) (i : nat) (v d : A) :
  (i < length l)%nat -> nth i (list_set l i v) d = v.
Proof.
  revert i. induction l as [|a l IH]; intros [|i] Hi; simpl in *;
    try lia; [reflexivity|]. apply IH. lia.
Qed.

Lemma nth_list_set_neq (l : list A) (i k : nat) (v d : A) :
  i <> k -> nth k (list_set l i v) d = nth k l d.
Proof.
  revert i k. induction l as [|a l IH]; intros [|i] [|k] Hne; simpl;
    try reflexivity; try congruence.
  apply IH. congruence.
Qed.

End ListSet.

Section LoopMore.
Context {F : Type} `{PyFloat F}.
Local Open Scope py_scope.

Lemma compute_vertices_exhausted (ls : F) (contour g : list (point F))
    (count : Z) :
  (0 < count)%Z -> compute_vertices ls contour g [] count = Raise ValueError.
Proof.
  intros Hc. unfold compute_vertices.
  destruct (Z.ltb_spec count 0); [lia|].
  rewrite (iterations_raise ls _ (k := 1) (e := ValueError));
    [reflexivity|lia|].
  rewrite iterations_succ. simpl. now apply recover_step_exhausted.
Qed.

(** X16.  Degenerate calls of [compute_vertices]: a negative count raises
    [ValueError] (from [np.zeros]); a zero count returns the empty array
    without reading the grid or the scores; a positive count on an empty
    scores array raises [ValueError] (from [np.argmin]) in the first
    iteration. *)
Theorem compute_vertices_degenerate (ls : F) (contour g : list (point F))
    (s : list F) (count : Z) :
  ((count < 0)%Z -> compute_vertices ls contour g s count = Raise ValueError)
  /\ (count = 0%Z -> compute_vertices ls contour g s count = OK [])
  /\ ((0 < count)%Z -> s = [] ->
      compute_vertices ls contour g s count = Raise ValueError).
Proof.
  split; [|split].
  - intros Hc. unfold compute_vertices.
    destruct (Z.ltb_spec count 0); [reflexivity|lia].
  - intros ->. reflexivity.
  - intros Hc ->. now apply compute_vertices_exhausted.
Qed.

(** What one iteration that returns has done to the output array *)
Lemma recover_step_output (ls : F) (i : nat) (st st' : vars F) :
  recover_step ls i tt st = OK (tt, st') ->
  exists p,
    place_inner_vertex ls st = OK (p, st)
    /\ (i < length (var_out st))%nat
    /\ var_out st' = list_set (var_out st) i p.
Proof.
  intros E. unfold recover_step in E. unfold bind at 1 in E.
  destruct (place_inner_vertex ls st) as [[p st1]|e] eqn:Ep; [|discriminate].
  assert (Hst := read_only_place_inner_vertex ls _ Ep). subst st1.
  exists p. split; [reflexivity|].
  unfold bind at 1 in E. unfold set_out in E.
  destruct (Nat.ltb_spec i (length (var_out st))) as [Hi|Hi];
    [|discriminate].
  split; [exact Hi|].
  unfold bind at 1 in E. unfold out_at, lift in E. simpl var_out in E.
  destruct (py_index _ (Z.of_nat i)) as [v|e]; [|discriminate].
  unfold bind, get_grid, get_scores, lift, rebind in E. simpl in E.
  destruct (remove_points_grid ls v (var_grid st) (var_scores st))
    as [[g' s']|e]; [|discriminate].
  inversion E; subst st'. reflexivity.
Qed.

Lemma iterations_output (ls : F) (st0 : vars F) (d : point F) (n : nat) :
  forall stn,
    iterations ls n st0 = OK (tt, stn) ->
    length (var_out stn) = length (var_out st0)
    /\ forall k, (k < n)%nat ->
         exists st p,
           iterations ls k st0 = OK (tt, st)
           /\ place_inner_vertex ls st = OK (p, st)
           /\ nth k (var_out stn) d = p.
Proof.
  induction n as [|n IH]; intros stn E.
  - inversion E; subst. split; [reflexivity|]. intros k Hk. lia.
  - rewrite iterations_succ in E.
    destruct (iterations ls n st0) as [[[] st1]|e] eqn:En; [|discriminate].
    destruct (IH st1 eq_refl) as [Hlen Hprev].
    destruct (recover_step_output ls n st1 E) as (p & Ep & Hn & Eout).
    assert (Hlen' : length (var_out stn) = length (var_out st1)).
    { rewrite Eout. clear. generalize n.
      induction (var_out st1) as [|a l IHl]; intros [|k]; simpl; auto. }
    split; [congruence|].
    intros k Hk. destruct (Nat.eq_dec k n) as [->|Hne].
    + exists st1, p. split; [exact En|]. split; [exact Ep|].
      rewrite Eout. now apply nth_list_set_eq.
    + destruct (Hprev k ltac:(lia)) as (st & q & Ek & Eq & Hq).
      exists st, q. split; [exact Ek|]. split; [exact Eq|].
      rewrite Eout, nth_list_set_neq by congruence. exact Hq.
Qed.

(** X17.  When [compute_vertices] returns, entry [k] of its result is the
    point [place_inner_vertex] returned in iteration [k], on the grid and
    scores left by the [k] iterations before it: the output is in recovery
    order and no entry is written twice. *)
Theorem compute_vertices_output_order (ls : F) (contour g : list (point F))
    (s : list F) (count : Z) (out : list (point F)) (d : point F) :
  compute_vertices ls contour g s count = OK out ->
  forall k, (k < Z.to_nat count)%nat ->
    exists st,
      iterations ls k (Vars g s (repeat (lit 0, lit 0) (Z.to_nat count)))
      = OK (tt, st)
      /\ place_inner_vertex ls st = OK (nth k out d, st).
Proof.
  intros E k Hk. unfold compute_vertices in E.
  destruct (Z.ltb_spec count 0); [discriminate|].
  destruct (iterations ls (Z.to_nat count) _) as [[[] stn]|e] eqn:En;
    [|discriminate].
  inversion E; subst out.
  destruct (iterations_output ls _ d _ En) as [_ Hall].
  destruct (Hall k Hk) as (st & p & Ek & Ep & Hp).
  exists st. split; [exact Ek|]. now rewrite Hp.
Qed.

End LoopMore.

Lemma compute_vertices_output_order_witness :
  exists st,
    iterations (F:=Q) 1 0 (Vars grid3 scores_centre [(0, 0)%Q]) = OK (tt, st)
    /\ place_inner_vertex 1 st = OK ((15 # 24, 6 # 15)%Q, st).
Proof.
  assert (E : compute_vertices (F:=Q) 1 [] grid3 scores_centre 1
              = OK [(15 # 24, 6 # 15)%Q]) by (vm_compute; reflexivity).
  apply (@compute_vertices_output_order Q Q_float 1%Q [] grid3 scores_centre
           1%Z [(15 # 24, 6 # 15)%Q] (0, 0)%Q E 0%nat).
  simpl. lia.
Defined.

(** ** The driver: scoring and recovery composed *)

Section DriverFacts.
Context {F : Type} `{PyFloat F} `{PySqrt F}.
Local Open Scope py_scope.

Lemma score_of_node_total (nodes : list F) :
  targets nodes <> [] ->
  exists m : point F -> F, forall p, score_of_node p nodes = OK (m p).
Proof.
  intros Hne.
  exists (fun p => match py_min (distances p nodes) with
                   | OK r => r
                   | Raise _ => lit 0
                   end).
  intros p. rewrite score_of_node_min. unfold distances.
  destruct (targets nodes) as [|t ts]; [congruence|]. reflexivity.
Qed.

Lemma calculate_score_array_no_target (g : list (point F)) (nodes : list F) :
  targets nodes = [] -> g <> [] ->
  calculate_score_array g nodes = Raise ValueError.
Proof.
  intros Ht Hg. destruct g as [|p g']; [congruence|].
  unfold calculate_score_array.
  replace (2 * length (p :: g') / 2)%nat with (S (length g'))
    by (rewrite Nat.mul_comm, Nat.div_mul by lia; reflexivity).
  change (range (S (length g'))) with (0%nat :: seq 1 (length g')).
  simpl for_r. rewrite score_of_node_min. unfold distances.
  rewrite Ht. reflexivity.
Qed.

(** Whatever the arithmetic, a score array that is returned is parallel to
    the grid. *)
Lemma calculate_score_array_length (g : list (point F)) (nodes : list F)
    (S : list F) :
  calculate_score_array g nodes = OK S -> length S = length g.
Proof.
  intros E. destruct (targets nodes) as [|t ts] eqn:Et.
  - destruct g as [|p g'].
    + inversion E. reflexivity.
    + rewrite calculate_score_array_no_target in E by (auto; discriminate).
      discriminate.
  - destruct (score_of_node_total nodes) as [m Hm];
      [rewrite Et; discriminate|].
    unfold calculate_score_array in E.
    replace (2 * length g / 2)%nat with (length g) in E
      by (rewrite Nat.mul_comm, Nat.div_mul by lia; reflexivity).
    rewrite (fill_by_index_r (lit 0)
               (fun i => score_of_node (fst (row g i), snd (row g i)) nodes)
               (fun i => m (row g i))) in E
      by (intros; try lia; rewrite <- surjective_pairing; apply Hm).
    inversion E. rewrite length_app, length_map, repeat_length.
    unfold range. rewrite length_seq. lia.
Qed.

Lemma half_count (cv : list F) :
  Z.to_nat (Z.of_nat (length cv) / 2) = (length cv / 2)%nat.
Proof.
  change 2%Z with (Z.of_nat 2). rewrite <- Nat2Z.inj_div. apply Nat2Z.id.
Qed.

(** X18.  Degenerate runs of the driver, once the grid [g] is built.  With
    no inner vertex from the mesher and a non-empty grid the scoring raises
    [ValueError], although no point is asked for; with no inner vertex and
    an empty grid the empty result is returned; with at least one inner
    vertex and an empty grid the first recovery raises [ValueError]. *)
Theorem main_recovery_degenerate (contour : list (point F))
    (coord_inner_v : list F) (g : list (point F)) :
  create_grid contour (lit 1) = OK g ->
  (targets coord_inner_v = [] -> g <> [] ->
   main_recovery contour coord_inner_v = Raise ValueError)
  /\ (targets coord_inner_v = [] -> g = [] ->
      main_recovery contour coord_inner_v = OK [])
  /\ (targets coord_inner_v <> [] -> g = [] ->
      main_recovery contour coord_inner_v = Raise ValueError).
Proof.
  intros Eg. unfold main_recovery. rewrite Eg. split; [|split].
  - intros Ht Hg. now rewrite calculate_score_array_no_target.
  - intros Ht ->. simpl calculate_score_array.
    apply targets_nil_iff in Ht.
    replace (Z.of_nat (length coord_inner_v) / 2)%Z with 0%Z;
      [reflexivity|].
    symmetry. apply Z.div_small. lia.
  - intros Ht ->. simpl calculate_score_array.
    apply compute_vertices_exhausted.
    assert (Hlen : (2 <= length coord_inner_v)%nat).
    { destruct (Nat.lt_ge_cases (length coord_inner_v) 2) as [Hlt|Hge];
        [|exact Hge].
      apply targets_nil_iff in Hlt. contradiction. }
    apply Z.div_str_pos. lia.
Qed.

(** X19.  When the driver returns, the recovery loop was handed a grid and
    a score array of the same length, and the result holds one point per
    pair of coordinates the mesher returned: [len(coord_inner_v) // 2]
    points. *)
Theorem main_recovery_count (contour : list (point F))
    (coord_inner_v : list F) (out : list (point F)) :
  main_recovery contour coord_inner_v = OK out ->
  length out = (length coord_inner_v / 2)%nat
  /\ exists g S,
       create_grid contour (lit 1) = OK g
       /\ calculate_score_array g coord_inner_v = OK S
       /\ length S = length g.
Proof.
  intros E. unfold main_recovery in E.
  destruct (create_grid contour (lit 1)) as [g|e] eqn:Eg; [|discriminate].
  destruct (calculate_score_array g coord_inner_v) as [S|e] eqn:Es;
    [|discriminate].
  split.
  - unfold compute_vertices in E.
    destruct (Z.ltb_spec (Z.of_nat (length coord_inner_v) / 2) 0);
      [discriminate|].
    destruct (iterations _ _ _) as [[[] stn]|e] eqn:En; [|discriminate].
    inversion E; subst out.
    destruct (iterations_output _ _ (lit 0, lit 0) _ En) as [Hlen _].
    rewrite Hlen. simpl. rewrite repeat_length. apply half_count.
  - exists g, S. split; [reflexivity|]. split; [exact Es|].
    now apply calculate_score_array_length in Es.
Qed.

End DriverFacts.

Lemma main_recovery_degenerate_witness :
  main_recovery (F:=float) [] [0%float; 0%float] = Raise ValueError.
Proof.
  apply (proj2 (proj2 (@main_recovery_degenerate float b64_float b64_sqrt []
                         [0%float; 0%float] []
                         ltac:(vm_compute; reflexivity)))).
  - discriminate.
  - reflexivity.
Defined.

Lemma main_recovery_count_witness :
  exists out,
    main_recovery (F:=float) small_square [0%float; 0%float] = OK out
    /\ length out = 1%nat.
Proof.
  destruct (main_recovery (F:=float) small_square [0%float; 0%float])
    as [out|e] eqn:E.
  - exists out. split; [reflexivity|].
    exact (proj1 (@main_recovery_count float b64_float b64_sqrt small_square
                    [0%float; 0%float] out E)).
  - vm_compute in E. discriminate.
Defined.

(** ** The recoverer: more than three column matches *)

Section ExtraMatches.
Context {F : Type} `{PyFloat F}.
Local Open Scope py_scope.

Lemma py_del_fifth_tail {A} (a b c d e : A) (tail : list A) :
  py_del (a :: b :: c :: d :: e :: tail) 4 = OK (a :: b :: c :: d :: tail).
Proof.
  assert (E : (4 <? Z.of_nat (length (a :: b :: c :: d :: e :: tail)))%Z
              = true) by (apply Z.ltb_lt; simpl length; lia).
  unfold py_del. cbv zeta. change (4 <? 0)%Z with false. cbv iota.
  rewrite E. reflexivity.
Qed.

Lemma py_index_app_l {A} (l1 l2 : list A) (i : Z) :
  (0 <= i < Z.of_nat (length l1))%Z ->
  py_index (l1 ++ l2) i = py_index l1 i.
Proof.
  intros Hi. unfold py_index. rewrite length_app, Nat2Z.inj_add.
  destruct (Z.ltb_spec i 0); [lia|].
  destruct (Z.leb_spec 0 i); [|lia].
  destruct (Z.ltb_spec i (Z.of_nat (length l1) + Z.of_nat (length l2)));
    [|lia].
  destruct (Z.ltb_spec i (Z.of_nat (length l1))); [|lia].
  simpl. rewrite nth_error_app1 by lia. reflexivity.
Qed.

Lemma np_get_app_l {A} (d : A) (l1 l2 : list A) (i : Z) :
  (0 <= i < Z.of_nat (length l1))%Z ->
  np_get d (l1 ++ l2) i = np_get d l1 i.
Proof. intros Hi. unfold np_get. now rewrite py_index_app_l. Qed.

Lemma fold_left_ext_in {A B} (f h : A -> B -> A) (idx : list B) :
  (forall a i, In i idx -> f a i = h a i) ->
  forall a, fold_left f idx a = fold_left h idx a.
Proof.
  induction idx as [|i idx IH]; intros Hf a; [reflexivity|]. simpl.
  rewrite (Hf a i (or_introl eq_refl)). apply IH.
  intros a0 i0 Hi0. apply Hf. now right.
Qed.

Ltac step E := rewrite (run_bind _ _ _ E); cbv beta.

(** The run of [place_inner_vertex] when the scan finds at least three
    column indices and every slot is readable *)
Lemma place_inner_vertex_first_three (ls : F) (st : vars F) (m : Z)
    (coord_min next : point F) (i0 i1 i2 : nat) (more : list nat) :
  np_argmin (var_scores st) = OK m ->
  py_index (var_grid st) m = OK coord_min ->
  py_index (var_grid st) (m + 1) = OK next ->
  column (var_grid st) coord_min (fabs (fst coord_min - fst next))
  = i0 :: i1 :: i2 :: more ->
  length (var_scores st) = length (var_grid st) ->
  Forall (valid_index (length (var_grid st)))
         (slots (i0 :: i1 :: i2 :: more)) ->
  place_inner_vertex ls st
  = OK ((weighted_average fst
           (pick (lit 0, origin) (neighbourhood st i0 i1 i2)
                 [0; 1; 2; 5; 6; 7]%nat),
         weighted_average snd
           (pick (lit 0, origin) (neighbourhood st i0 i1 i2)
                 [0; 3; 5; 2; 4; 7]%nat)),
        st).
Proof.
  intros Hm Hcm Hnx Hcol Hlen Hv.
  unfold place_inner_vertex.
  assert (E1 : argmin_scores st = OK (m, st))
    by (unfold argmin_scores; now apply run_lift).
  assert (E2 : grid_at m st = OK (coord_min, st))
    by (unfold grid_at; now apply run_lift).
  assert (E3 : grid_at (m + 1) st = OK (next, st))
    by (unfold grid_at; now apply run_lift).
  assert (E4 : len_grid st = OK (length (var_grid st), st)) by reflexivity.
  step E1. step E2. step E3. step E4.
  assert (E5 := run_scan st coord_min (fabs (fst coord_min - fst next))
                  (range (length (var_grid st))) []
                  (fun i Hi => proj2 (proj1 (in_seq _ _ _) Hi))).
  simpl app in E5.
  fold (column (var_grid st) coord_min (fabs (fst coord_min - fst next)))
    in E5.
  rewrite Hcol in E5. step E5.
  set (lab := eight_labels i0 i1 i2).
  set (tail := slots more).
  assert (E6 : lift (py_del (slots (i0 :: i1 :: i2 :: more)) 4) st
               = OK (lab ++ tail, st)).
  { apply run_lift.
    change (slots (i0 :: i1 :: i2 :: more))
      with ((Z.of_nat i0 - 1)%Z :: Z.of_nat i0 :: (Z.of_nat i0 + 1)%Z
            :: (Z.of_nat i1 - 1)%Z :: Z.of_nat i1
            :: ((Z.of_nat i1 + 1)%Z :: (Z.of_nat i2 - 1)%Z :: Z.of_nat i2
                :: (Z.of_nat i2 + 1)%Z :: tail)).
    now rewrite py_del_fifth_tail. }
  step E6.
  assert (Hvall : Forall (valid_index (length (var_grid st))) (lab ++ tail)).
  { apply Forall_forall. intros l Hl.
    apply (proj1 (Forall_forall _ _) Hv).
    change (slots (i0 :: i1 :: i2 :: more))
      with ([(Z.of_nat i0 - 1)%Z; Z.of_nat i0; (Z.of_nat i0 + 1)%Z;
             (Z.of_nat i1 - 1)%Z; Z.of_nat i1; (Z.of_nat i1 + 1)%Z;
             (Z.of_nat i2 - 1)%Z; Z.of_nat i2; (Z.of_nat i2 + 1)%Z] ++ tail).
    apply in_app_or in Hl. apply in_or_app.
    destruct Hl as [Hl|Hl]; [left|now right].
    unfold lab, eight_labels in Hl. simpl in Hl |- *. tauto. }
  assert (Hs : Forall (valid_index (length (var_scores st))) (lab ++ tail))
    by now rewrite Hlen.
  assert (E7 : for_m (lab ++ tail)
                     (fun i acc => bind (scores_at i)
                                        (fun s => ret (acc ++ [s]))) [] st
               = OK (map (np_get (lit 0) (var_scores st)) (lab ++ tail), st))
    by exact (run_scores st [] Hs).
  step E7. rewrite map_app.
  set (sc := map (np_get (lit 0) (var_scores st)) lab).
  set (sct := map (np_get (lit 0) (var_scores st)) tail).
  assert (Hpos : forall idx : list Z,
             Forall (fun i => (0 <= i < 8)%Z) idx ->
             Forall (fun i => exists s l,
                       py_index (sc ++ sct) i = OK s
                       /\ py_index (lab ++ tail) i = OK l
                       /\ valid_index (length (var_grid st)) l) idx).
  { intros idx Hidx. eapply Forall_impl; [|exact Hidx].
    intros i Hi. cbv beta in Hi.
    exists (np_get (lit 0) sc i), (np_get 0%Z lab i).
    rewrite !py_index_app_l by (simpl; lia).
    split; [apply py_index_valid; unfold valid_index; simpl; lia|].
    split; [apply py_index_valid; unfold valid_index; simpl; lia|].
    assert (Hi' : (i = 0 \/ i = 1 \/ i = 2 \/ i = 3 \/ i = 4 \/ i = 5
                   \/ i = 6 \/ i = 7)%Z) by lia.
    apply (proj1 (Forall_forall _ _) Hvall). apply in_or_app. left.
    repeat (destruct Hi' as [->|Hi']; [simpl; tauto|]).
    subst i. simpl. tauto. }
  assert (Hfold : forall (axis : point F -> F) (idx : list Z),
             Forall (fun i => (0 <= i < 8)%Z) idx ->
             fold_left
               (fun a i =>
                  (fst a + np_get (lit 0) (sc ++ sct) i
                           * axis (np_get origin (var_grid st)
                                          (np_get 0%Z (lab ++ tail) i)),
                   snd a + np_get (lit 0) (sc ++ sct) i))
               idx (lit 0, lit 0)
             = fold_left
                 (fun a i =>
                    (fst a + np_get (lit 0) sc i
                             * axis (np_get origin (var_grid st)
                                            (np_get 0%Z lab i)),
                     snd a + np_get (lit 0) sc i))
                 idx (lit 0, lit 0)).
  { intros axis idx Hidx. apply fold_left_ext_in. intros a i Hi.
    assert (Hr : (0 <= i < 8)%Z)
      by exact (proj1 (Forall_forall _ _) Hidx i Hi).
    rewrite !np_get_app_l by (simpl; lia). reflexivity. }
  assert (Hxs : Forall (fun i => (0 <= i < 8)%Z) xs)
    by (repeat constructor; lia).
  assert (Hys : Forall (fun i => (0 <= i < 8)%Z) ys)
    by (repeat constructor; lia).
  assert (E8 := run_weigh_loop fst (lab ++ tail) (sc ++ sct) st
                  (lit 0, lit 0) (Hpos xs Hxs)).
  rewrite (Hfold fst xs Hxs) in E8. step E8.
  assert (E9 := run_weigh_loop snd (lab ++ tail) (sc ++ sct) st
                  (lit 0, lit 0) (Hpos ys Hys)).
  rewrite (Hfold snd ys Hys) in E9. step E9.
  reflexivity.
Qed.

(** X20.  When the scan finds more than three column indices, as it does
    when [grid[m+1]] is not the right-hand neighbour of the minimum and the
    inferred spacing is too large, only the first three count: provided all
    collected slots are indices numpy accepts, the result is the pair of
    weighted averages over the eight labels of the first three indices, as
    if the others had not been found. *)
Theorem place_inner_vertex_extra_matches (ls : F) (st : vars F) (m : Z)
    (coord_min next : point F) (i0 i1 i2 : nat) (more : list nat) :
  np_argmin (var_scores st) = OK m ->
  py_index (var_grid st) m = OK coord_min ->
  py_index (var_grid st) (m + 1) = OK next ->
  column (var_grid st) coord_min (fabs (fst coord_min - fst next))
  = i0 :: i1 :: i2 :: more ->
  length (var_scores st) = length (var_grid st) ->
  Forall (valid_index (length (var_grid st)))
         (slots (i0 :: i1 :: i2 :: more)) ->
  place_inner_vertex ls st
  = OK ((weighted_average fst
           (pick (lit 0, origin) (neighbourhood st i0 i1 i2)
                 [0; 1; 2; 5; 6; 7]%nat),
         weighted_average snd
           (pick (lit 0, origin) (neighbourhood st i0 i1 i2)
                 [0; 3; 5; 2; 4; 7]%nat)),
        st).
Proof.
  intros Hm Hcm Hnx Hcol Hlen Hv.
  exact (place_inner_vertex_first_three ls st Hm Hcm Hnx Hcol Hlen Hv).
Qed.

End ExtraMatches.

Lemma place_inner_vertex_extra_matches_witness :
  column (F:=Q) grid_hole (0, 1)%Q (Qabs (0 - 2)) = [0; 3; 5; 8]%nat
  /\ place_inner_vertex (F:=Q) 1 (Vars grid_hole scores_hole [])
     = OK ((12 # 12, 14 # 12)%Q, Vars grid_hole scores_hole []).
Proof.
  split; [reflexivity|].
  assert (Hm : np_argmin (F:=Q) scores_hole = OK 3%Z) by reflexivity.
  assert (Hc : py_index (grid_hole (F:=Q)) 3 = OK (0, 1)%Q) by reflexivity.
  assert (Hn : py_index (grid_hole (F:=Q)) (3 + 1) = OK (2, 1)%Q)
    by reflexivity.
  assert (Hcol : column (F:=Q) grid_hole (0, 1)%Q
                        (fabs (fst (0, 1)%Q - fst (2, 1)%Q)%py)
                 = [0; 3; 5; 8]%nat) by reflexivity.
  assert (Hv : Forall (valid_index (length (grid_hole (F:=Q))))
                      (slots [0; 3; 5; 8]%nat))
    by (repeat constructor; unfold valid_index; simpl; lia).
  rewrite (@place_inner_vertex_extra_matches Q Q_float 1%Q
             (Vars grid_hole scores_hole []) 3%Z (0, 1)%Q (2, 1)%Q
             0%nat 3%nat 5%nat [8%nat] Hm Hc Hn Hcol eq_refl Hv).
  vm_compute. reflexivity.
Defined.

(** ** Scoring and pruning together *)

Section ScoreThenPrune.
Context {F : Type} `{PyFloat F} `{PySqrt F}.
Local Open Scope py_scope.

Lemma map_row (m : point F -> F) (g : list (point F)) :
  map (fun i => m (row g i)) (range (length g)) = map m g.
Proof.
  unfold range, row.
  induction g as [|p g IH]; [reflexivity|]. simpl. f_equal.
  rewrite <- seq_shift, map_map. exact IH.
Qed.

(** With at least one target the score array is the grid mapped through
    [score_of_node]. *)
Lemma calculate_score_array_map (nodes : list F) (m : point F -> F) :
  (forall p, score_of_node p nodes = OK (m p)) ->
  forall g, calculate_score_array g nodes = OK (map m g).
Proof.
  intros Hm g. unfold calculate_score_array.
  replace (2 * length g / 2)%nat with (length g)
    by (rewrite Nat.mul_comm, Nat.div_mul by lia; reflexivity).
  rewrite (fill_by_index_r (lit 0)
             (fun i => score_of_node (fst (row g i), snd (row g i)) nodes)
             (fun i => m (row g i)))
    by (intros; try lia; rewrite <- surjective_pairing; apply Hm).
  now rewrite Nat.sub_diag, app_nil_r, map_row.
Qed.

Lemma combine_map_self (m : point F -> F) (g : list (point F)) :
  combine g (map m g) = map (fun p => (p, m p)) g.
Proof. induction g as [|p g IH]; simpl; [reflexivity|now rewrite IH]. Qed.

Lemma filter_map_pair (m : point F -> F) (q : point F -> bool)
    (g : list (point F)) :
  filter (fun ps => q (fst ps)) (map (fun p => (p, m p)) g)
  = map (fun p => (p, m p)) (filter q g).
Proof.
  induction g as [|p g IH]; simpl; [reflexivity|].
  destruct (q p); simpl; now rewrite IH.
Qed.

(** X21.  Pruning keeps the scores aligned with the grid: if [scores] is
    the score array of [grid] for some targets and [remove_points_grid]
    turns them into [grid'] and [scores'], then [scores'] is what
    [calculate_score_array] returns on [grid'] for the same targets.  So
    the loop never needs to score again. *)
Theorem pruning_commutes_with_scoring (ls : F) (vert : point F)
    (nodes : list F) (g g' : list (point F)) (s s' : list F) :
  calculate_score_array g nodes = OK s ->
  remove_points_grid ls vert g s = OK (g', s') ->
  calculate_score_array g' nodes = OK s'.
Proof.
  intros Es Er.
  assert (Hlen : length g = length s)
    by (symmetry; now apply calculate_score_array_length in Es).
  destruct (select_filter (fun p => negb (prune_test ls vert p))
              (fun i => negb (prune_test ls vert (row g i))) origin
              g s 0 Hlen) as (E1 & E2 & E3); [reflexivity|].
  destruct (@remove_points_grid_returns _ _ ls vert g g' s s' Hlen Er)
    as [-> ->]. clear Er.
  destruct (targets nodes) as [|t ts] eqn:Et.
  - destruct g as [|p g0].
    + inversion Es. reflexivity.
    + rewrite calculate_score_array_no_target in Es by (auto; discriminate).
      discriminate.
  - destruct (score_of_node_total nodes) as [m Hm];
      [rewrite Et; discriminate|].
    rewrite (calculate_score_array_map nodes m Hm) in Es |- *.
    inversion Es; subst s. f_equal.
    rewrite combine_map_self in E2.
    rewrite (filter_map_pair m (fun p => negb (prune_test ls vert p))) in E2.
    rewrite <- E1, <- combine_map_self in E2.
    apply combine_inj in E2; [symmetry; exact (proj2 E2)|exact E3|].
    now rewrite length_map.
Qed.

End ScoreThenPrune.

Lemma pruning_commutes_with_scoring_witness :
  calculate_score_array [(0, 0)]%float [3; 4; 6; 8]%float = OK [5]%float.
Proof.
  apply (@pruning_commutes_with_scoring float b64_float b64_sqrt 1%float
           (3, 4)%float [3; 4; 6; 8]%float [(0, 0); (3, 4)]%float
           [(0, 0)]%float [5; 0]%float [5]%float).
  - exact score_example.
  - vm_compute. reflexivity.
Defined.

(** ** The point-in-polygon test: the starting vertex does not matter *)

Section ContourRotation.
Context {F : Type} `{PyFloat F}.
Local Open Scope py_scope.

(** The loop in one formula, for every input *)
Lemma is_in_contour_unfold (x y : F) (coord : list (point F)) :
  is_in_contour x y coord = corner_boundary_or_parity x y coord.
Proof.
  unfold corner_boundary_or_parity, is_in_contour.
  destruct (existsb (is_corner x y) coord) eqn:Ec.
  - apply existsb_exists in Ec. destruct Ec as (v & Hv & Hc).
    destruct (In_nth _ _ origin Hv) as (i & Hi & Hnth).
    rewrite (for_in_corner x y coord (range (length coord)));
      [reflexivity|].
    exists i. split; [unfold range; apply in_seq; lia|].
    unfold row. now rewrite Hnth.
  - destruct (existsb (on_straddling_edge x y) (edges coord)) eqn:Eb.
    + apply existsb_exists in Eb. destruct Eb as (e & He & Hon).
      rewrite edges_unfold in He.
      rewrite (for_in_boundary x y coord); [reflexivity|now exists e].
    + simpl orb.
      destruct (for_in_parity x y coord (range (length coord))
                  (length coord - 1) false) as [j' E].
      * intros i Hi. apply row_in in Hi.
        destruct (is_corner x y (row coord i)) eqn:E0; [|reflexivity].
        rewrite <- Ec. symmetry. apply existsb_exists. eauto.
      * rewrite <- edges_unfold. intros e He.
        destruct (on_straddling_edge x y e) eqn:E0; [|reflexivity].
        rewrite <- Eb. symmetry. apply existsb_exists. eauto.
      * rewrite E, <- edges_unfold. reflexivity.
Qed.

Lemma edges_from_links (coord : list (point F)) (suf : list (point F)) :
  forall (pre : list (point F)) (j : nat),
    coord = pre ++ suf ->
    edges_from coord j (seq (length pre) (length suf))
    = links (row coord j) suf.
Proof.
  induction suf as [|p r IH]; intros pre j Hc; [reflexivity|].
  simpl. f_equal.
  - f_equal. unfold row. rewrite Hc, app_nth2, Nat.sub_diag by lia.
    reflexivity.
  - replace (S (length pre)) with (length (pre ++ [p]))
      by (rewrite length_app; simpl; lia).
    rewrite (@IH (pre ++ [p]) (length pre))
      by (rewrite <- app_assoc; exact Hc).
    f_equal. unfold row. rewrite Hc, app_nth2, Nat.sub_diag by lia.
    reflexivity.
Qed.

Lemma edges_links (coord : list (point F)) :
  edges coord = links (row coord (length coord - 1)) coord.
Proof.
  rewrite edges_unfold. exact (@edges_from_links coord coord [] _ eq_refl).
Qed.

Lemma last_cons (p d : point F) (l : list (point F)) :
  last (p :: l) d = last l p.
Proof.
  revert p d. induction l as [|q l IH]; intros p d; [reflexivity|].
  change (last (p :: q :: l) d) with (last (q :: l) d).
  now rewrite (IH q d), (IH q p).
Qed.

Lemma links_snoc (prev v : point F) (l : list (point F)) :
  links prev (l ++ [v]) = links prev l ++ [(v, last l prev)].
Proof.
  revert prev. induction l as [|p l IH]; intros prev; [reflexivity|].
  rewrite last_cons.
  change (links prev ((p :: l) ++ [v]))
    with ((p, prev) :: links p (l ++ [v])).
  now rewrite IH.
Qed.

Lemma row_last (v : point F) (l : list (point F)) :
  row (v :: l) (length (v :: l) - 1) = last l v.
Proof.
  unfold row.
  replace (length (v :: l) - 1)%nat with (length l) by (simpl; lia).
  revert v.
  induction l as [|p l IH]; intros v; [reflexivity|].
  change (nth (length (p :: l)) (v :: p :: l) origin)
    with (nth (length l) (p :: l) origin).
  now rewrite IH, last_cons.
Qed.

Lemma edges_rotate (v : point F) (l : list (point F)) :
  edges (v :: l) = (v, last l v) :: links v l
  /\ edges (l ++ [v]) = links v l ++ [(v, last l v)].
Proof.
  split.
  - rewrite edges_links, row_last. reflexivity.
  - assert (Hr : row (l ++ [v]) (length (l ++ [v]) - 1) = v).
    { unfold row. rewrite length_app. simpl length.
      replace (length l + 1 - 1)%nat with (length l) by lia.
      now rewrite app_nth2, Nat.sub_diag by lia. }
    now rewrite edges_links, Hr, links_snoc.
Qed.

Lemma rotate_one (x y : F) (v : point F) (l : list (point F)) :
  is_in_contour x y (l ++ [v]) = is_in_contour x y (v :: l).
Proof.
  rewrite !is_in_contour_unfold. unfold corner_boundary_or_parity, crossings.
  destruct (edges_rotate v l) as [-> ->].
  rewrite !existsb_app, filter_app, length_app. simpl existsb. simpl filter.
  rewrite !orb_false_r.
  rewrite (orb_comm (existsb (is_corner x y) l)).
  rewrite (orb_comm (existsb (on_straddling_edge x y) (links v l))).
  destruct (counted x y (v, last l v)); simpl length;
    [rewrite Nat.add_1_r|rewrite Nat.add_0_r]; reflexivity.
Qed.

(** X22.  The answer of [is_in_contour] does not depend on the vertex the
    contour starts from: listing the same cycle of vertices from another
    starting point gives the same result, for every query point and in any
    arithmetic. *)
Theorem is_in_contour_rotation (x y : F) (l1 l2 : list (point F)) :
  is_in_contour x y (l2 ++ l1) = is_in_contour x y (l1 ++ l2).
Proof.
  revert l2. induction l1 as [|v l1 IH]; intros l2.
  - now rewrite app_nil_r.
  - simpl app. rewrite <- rotate_one, <- app_assoc, <- IH, <- app_assoc.
    reflexivity.
Qed.

End ContourRotation.
